(** * pyfda: frequency-specification widget and filter-design delegation

    A shallow embedding of

    - [pyfda/input_widgets/input_freq_specs.py] (class [InputFreqSpecs]) and
    - [pyFDA/inputWidgets/input_params.py] (class [InputParams]),

    with the shared filter dictionary [fb.fil[0]] as a finite map, Python
    floats as IEEE-754 binary64 numbers (Rocq's primitive floats), the Qt
    widgets as records, and every method as a state transformer that may
    raise a Python exception. *)

From Stdlib Require Import ZArith Ascii String List Floats.
From Stdlib Require Import Sorting.Sorted Sorting.Permutation.
From stdpp Require Import gmap strings list.

Local Open Scope string_scope.
Local Open Scope list_scope.
Local Open Scope nat_scope.

(** ** Python values, exceptions and the operators the widgets use *)

Module Py.

(** The value universe of the filter dictionary: numbers, flags and text
    entries.  A Python [int] that meets [/] or [*] is converted to the
    binary64 number of the same value first, so numbers are carried in
    that form throughout. *)
Inductive pyval :=
| PFloat (x : float)
| PBool (b : bool)
| PStr (s : string).

Inductive exn :=
| KeyError (k : string)
| IndexError
| TypeError
| ValueError
| ZeroDivisionError
| AttributeError (name : string)
| EvalError (text : string).

Inductive outcome (A : Type) :=
| Ok (a : A)
| Raise (e : exn).
Arguments Ok {A} a.
Arguments Raise {A} e.

Definition is_ok {A} (r : outcome A) : bool :=
  match r with Ok _ => true | Raise _ => false end.

(** [bool] is a subclass of [int]; strings are not numbers. *)
Definition as_number (v : pyval) : option float :=
  match v with
  | PFloat x => Some x
  | PBool b => Some (if b then 1%float else 0%float)
  | PStr _ => None
  end.

(** Truth value of an object in an [if]. *)
Definition truthy (v : pyval) : bool :=
  match v with
  | PFloat x => negb (PrimFloat.eqb x 0%float)
  | PBool b => b
  | PStr s => negb (String.eqb s "")
  end.

(** [a / b] under [from __future__ import division]. *)
Definition py_truediv (a b : pyval) : outcome pyval :=
  match as_number a, as_number b with
  | Some x, Some y =>
      if PrimFloat.eqb y 0%float then Raise ZeroDivisionError
      else Ok (PFloat (PrimFloat.div x y))
  | _, _ => Raise TypeError
  end.

(** [a * b]: product of numbers, repetition of a string by a [bool]. *)
Definition py_mul (a b : pyval) : outcome pyval :=
  match a, b with
  | PStr s, PBool n | PBool n, PStr s => Ok (PStr (if n then s else ""))
  | _, _ =>
      match as_number a, as_number b with
      | Some x, Some y => Ok (PFloat (PrimFloat.mul x y))
      | _, _ => Raise TypeError
      end
  end.

(** [a + b]: sum of numbers, concatenation of strings. *)
Definition py_add (a b : pyval) : outcome pyval :=
  match a, b with
  | PStr s, PStr t => Ok (PStr (s ++ t)%string)
  | _, _ =>
      match as_number a, as_number b with
      | Some x, Some y => Ok (PFloat (PrimFloat.add x y))
      | _, _ => Raise TypeError
      end
  end.

(** [a < b]: numbers by value, strings lexicographically; a string against
    a number is a [TypeError]. *)
Definition py_lt (a b : pyval) : outcome bool :=
  match a, b with
  | PStr s, PStr t => Ok (String.ltb s t)
  | _, _ =>
      match as_number a, as_number b with
      | Some x, Some y => Ok (PrimFloat.ltb x y)
      | _, _ => Raise TypeError
      end
  end.

(** [list.sort()]: a stable sort that only uses [<].  On values that [<]
    orders (no NaN) every stable sort yields the same list; it is written
    here as stable insertion.  A comparison that raises aborts the sort. *)
Fixpoint insort (x : pyval) (l : list pyval) : outcome (list pyval) :=
  match l with
  | [] => Ok [x]
  | y :: l' =>
      match py_lt y x with
      | Raise e => Raise e
      | Ok true =>
          match insort x l' with
          | Ok r => Ok (y :: r)
          | Raise e => Raise e
          end
      | Ok false => Ok (x :: y :: l')
      end
  end.

Fixpoint list_sort (l : list pyval) : outcome (list pyval) :=
  match l with
  | [] => Ok []
  | x :: l' =>
      match list_sort l' with
      | Ok s => insort x s
      | Raise e => Raise e
      end
  end.

(** A number that takes part in the order: not a NaN. *)
Definition ordered_number (v : pyval) : Prop :=
  exists x, as_number v = Some x /\ PrimFloat.eqb x x = true.

(** [a <= b] on numbers. *)
Definition py_le (a b : pyval) : Prop :=
  exists x y, as_number a = Some x /\ as_number b = Some y
              /\ PrimFloat.leb x y = true.

End Py.

(** ** A state monad with exceptions

    A method runs on the program state and either returns a value or raises;
    what it wrote before raising stays written, as in Python. *)

Module Eff.
Import Py.

Definition M (S A : Type) : Type := S -> S * outcome A.

Definition ret {S A} (a : A) : M S A := fun s => (s, Ok a).

Definition raise {S A} (e : exn) : M S A := fun s => (s, Raise e).

Definition bind {S A B} (m : M S A) (k : A -> M S B) : M S B :=
  fun s =>
    match m s with
    | (s', Ok a) => k a s'
    | (s', Raise e) => (s', Raise e)
    end.

Definition gets {S A} (f : S -> A) : M S A := fun s => (s, Ok (f s)).

Definition modify {S} (f : S -> S) : M S unit := fun s => (f s, Ok tt).

Definition lift {S A} (r : outcome A) : M S A := fun s => (s, r).

Definition from_option {S A} (e : exn) (o : option A) : M S A :=
  match o with
  | Some a => ret a
  | None => raise e
  end.

(** [for i in <list of indices>: body(i)] *)
Fixpoint for_each {S} (idx : list nat) (body : nat -> M S unit) : M S unit :=
  match idx with
  | [] => ret tt
  | i :: rest => bind (body i) (fun _ => for_each rest body)
  end.

(** [for i in range(lo, hi): body(i)] *)
Definition for_range {S} (lo hi : nat) (body : nat -> M S unit) : M S unit :=
  for_each (seq lo (hi - lo)) body.

(** [[f(i) for i in <list of indices>]] *)
Fixpoint collect {S A} (idx : list nat) (f : nat -> M S A) : M S (list A) :=
  match idx with
  | [] => ret []
  | i :: rest =>
      bind (f i) (fun a => bind (collect rest f) (fun l => ret (a :: l)))
  end.

Definition state_of {S A} (r : S * outcome A) : S := fst r.
Definition result_of {S A} (r : S * outcome A) : outcome A := snd r.

End Eff.

Declare Scope eff_scope.
Delimit Scope eff_scope with eff.
Notation "x <- c1 ;; c2" := (Eff.bind c1 (fun x => c2))
  (at level 20, c1 at level 99, c2 at level 200, only parsing) : eff_scope.
Notation "c1 ;; c2" := (Eff.bind c1 (fun _ => c2))
  (at level 100, c2 at level 200, only parsing) : eff_scope.

(** ** The widget [InputFreqSpecs] *)

Module FreqSpecs.
Import Py Eff.
Local Open Scope eff_scope.

(** A [QLineEdit] as far as the widget uses it. *)
Record QLineEdit := mkLineEdit {
  objectName : string;
  text : string;
  hasFocus : bool;
  edit_visible : bool;
  eventFilterInstalled : bool
}.

Record QLabel := mkLabel {
  label_text : string;
  label_visible : bool
}.

(** The program state: the filter dictionary [fb.fil[0]] and the attributes
    of the one [InputFreqSpecs] instance.  [sigSpecsChanged] counts the
    emissions of the signal of that name. *)
Record state := mkState {
  fil : gmap string pyval;
  qlabels : list QLabel;
  qlineedit : list QLineEdit;
  new_labels : list string;
  n_cur_labels : nat;
  spec_edited : bool;
  sigSpecsChanged : nat
}.

(** [InputFreqSpecs.__init__] with [_construct_UI]. *)
Definition init (d : gmap string pyval) : state :=
  {| fil := d; qlabels := []; qlineedit := []; new_labels := [];
     n_cur_labels := 0; spec_edited := false; sigSpecsChanged := 0 |}.

Definition set_fil (f : gmap string pyval -> gmap string pyval) (st : state) : state :=
  {| fil := f (fil st); qlabels := qlabels st; qlineedit := qlineedit st;
     new_labels := new_labels st; n_cur_labels := n_cur_labels st;
     spec_edited := spec_edited st; sigSpecsChanged := sigSpecsChanged st |}.

Definition set_qlabels (f : list QLabel -> list QLabel) (st : state) : state :=
  {| fil := fil st; qlabels := f (qlabels st); qlineedit := qlineedit st;
     new_labels := new_labels st; n_cur_labels := n_cur_labels st;
     spec_edited := spec_edited st; sigSpecsChanged := sigSpecsChanged st |}.

Definition set_qlineedit (f : list QLineEdit -> list QLineEdit) (st : state) : state :=
  {| fil := fil st; qlabels := qlabels st; qlineedit := f (qlineedit st);
     new_labels := new_labels st; n_cur_labels := n_cur_labels st;
     spec_edited := spec_edited st; sigSpecsChanged := sigSpecsChanged st |}.

Definition set_new_labels (l : list string) (st : state) : state :=
  {| fil := fil st; qlabels := qlabels st; qlineedit := qlineedit st;
     new_labels := l; n_cur_labels := n_cur_labels st;
     spec_edited := spec_edited st; sigSpecsChanged := sigSpecsChanged st |}.

Definition set_n_cur_labels (n : nat) (st : state) : state :=
  {| fil := fil st; qlabels := qlabels st; qlineedit := qlineedit st;
     new_labels := new_labels st; n_cur_labels := n;
     spec_edited := spec_edited st; sigSpecsChanged := sigSpecsChanged st |}.

Definition set_spec_edited (b : bool) (st : state) : state :=
  {| fil := fil st; qlabels := qlabels st; qlineedit := qlineedit st;
     new_labels := new_labels st; n_cur_labels := n_cur_labels st;
     spec_edited := b; sigSpecsChanged := sigSpecsChanged st |}.

Definition emit_sigSpecsChanged (st : state) : state :=
  {| fil := fil st; qlabels := qlabels st; qlineedit := qlineedit st;
     new_labels := new_labels st; n_cur_labels := n_cur_labels st;
     spec_edited := spec_edited st; sigSpecsChanged := S (sigSpecsChanged st) |}.

(** Widget setters. *)
Definition setText (s : string) (w : QLineEdit) : QLineEdit :=
  {| objectName := objectName w; text := s; hasFocus := hasFocus w;
     edit_visible := edit_visible w;
     eventFilterInstalled := eventFilterInstalled w |}.

Definition setObjectName (s : string) (w : QLineEdit) : QLineEdit :=
  {| objectName := s; text := text w; hasFocus := hasFocus w;
     edit_visible := edit_visible w;
     eventFilterInstalled := eventFilterInstalled w |}.

Definition setEditVisible (b : bool) (w : QLineEdit) : QLineEdit :=
  {| objectName := objectName w; text := text w; hasFocus := hasFocus w;
     edit_visible := b; eventFilterInstalled := eventFilterInstalled w |}.

Definition installEventFilter (w : QLineEdit) : QLineEdit :=
  {| objectName := objectName w; text := text w; hasFocus := hasFocus w;
     edit_visible := edit_visible w; eventFilterInstalled := true |}.

Definition setLabelText (s : string) (w : QLabel) : QLabel :=
  {| label_text := s; label_visible := label_visible w |}.

Definition setLabelVisible (b : bool) (w : QLabel) : QLabel :=
  {| label_text := label_text w; label_visible := b |}.

(** [QtGui.QLabel(self)] and [QtGui.QLineEdit("")]. *)
Definition new_QLabel : QLabel := {| label_text := ""; label_visible := true |}.
Definition new_QLineEdit : QLineEdit :=
  {| objectName := ""; text := ""; hasFocus := false; edit_visible := true;
     eventFilterInstalled := false |}.

(** Events and their sources, as [eventFilter] tells them apart. *)
Inductive Key := Key_Return | Key_Enter | Key_Escape | Key_other (code : Z).

Inductive QEvent :=
| FocusIn
| FocusOut
| KeyPress (key : Key)
| OtherEvent.

Inductive QObject :=
| LineEdit (w : QLineEdit)
| OtherObject.

(** [fb.fil[0][k]] *)
Definition getitem (k : string) : M state pyval :=
  fun st => match fil st !! k with
            | Some v => (st, Ok v)
            | None => (st, Raise (KeyError k))
            end.

(** [fb.fil[0][k] = v] *)
Definition setitem (k : string) (v : pyval) : M state unit :=
  modify (set_fil (fun d => <[k := v]> d)).

(** [self.qlineedit[i]] and [self.qlabels[i]] *)
Definition lineedit_at (i : nat) : M state QLineEdit :=
  fun st => match qlineedit st !! i with
            | Some w => (st, Ok w)
            | None => (st, Raise IndexError)
            end.

Definition label_at (i : nat) : M state QLabel :=
  fun st => match qlabels st !! i with
            | Some w => (st, Ok w)
            | None => (st, Raise IndexError)
            end.

(** [self.qlineedit[i].<setter>(...)] and [self.qlabels[i].<setter>(...)] *)
Definition on_lineedit (i : nat) (f : QLineEdit -> QLineEdit) : M state unit :=
  w <- lineedit_at i ;; modify (set_qlineedit (fun l => <[i := f w]> l)).

Definition on_label (i : nat) (f : QLabel -> QLabel) : M state unit :=
  w <- label_at i ;; modify (set_qlabels (fun l => <[i := f w]> l)).

Section Methods.

(** Code outside the two files: the expression evaluator
    [pyfda.simpleeval.simple_eval], the built-in [str], the display format
    [params['FMT'].format] of [pyfda_rc] (a [ValueError] where the format
    does not fit the value), and [pyfda_lib.rt_label]. *)
Variable simple_eval : string -> outcome pyval.
Variable py_str : pyval -> string.
Variable FMT_format : pyval -> option string.
Variable rt_label : string -> string.

(** The value [f_value] that [load_entries] shows for a label. *)
Definition displayed_value (f_label : string) : M state pyval :=
  a <- getitem f_label ;;
  b <- getitem "f_S" ;;
  lift (py_mul a b).

Definition load_entries : M state unit :=
  n <- gets (fun st => length (qlineedit st)) ;;
  for_range 0 n (fun i =>
    w <- lineedit_at i ;;
    let f_label := objectName w in
    f_value <- displayed_value f_label ;;
    w' <- lineedit_at i ;;
    if negb (hasFocus w') then
      s <- from_option ValueError (FMT_format f_value) ;;
      on_lineedit i (setText s)
    else
      on_lineedit i (setText (py_str f_value))).

Definition sort_dict_freqs : M state unit :=
  flag <- getitem "freq_specs_sort" ;;
  (if truthy flag then
     n <- gets (fun st => length (qlineedit st)) ;;
     fSpecs <- collect (seq 0 n) (fun i =>
                 w <- lineedit_at i ;; getitem (objectName w)) ;;
     fSpecs <- lift (list_sort fSpecs) ;;
     n <- gets (fun st => length (qlineedit st)) ;;
     for_range 0 n (fun i =>
       v <- from_option IndexError (fSpecs !! i) ;;
       w <- lineedit_at i ;;
       setitem (objectName w) v)
   else ret tt) ;;
  load_entries.

Definition _store_entry (event_source : QLineEdit) : M state unit :=
  edited <- gets spec_edited ;;
  if edited then
    let f_label := objectName event_source in
    v <- lift (simple_eval (text event_source)) ;;
    f_S <- getitem "f_S" ;;
    f_value <- lift (py_truediv v f_S) ;;
    setitem f_label f_value ;;
    sort_dict_freqs ;;
    modify emit_sigSpecsChanged ;;
    modify (set_spec_edited false)
  else ret tt.

Definition eventFilter (source : QObject) (event : QEvent) : M state bool :=
  match source with
  | LineEdit w =>
      match event with
      | FocusIn =>
          modify (set_spec_edited false) ;; load_entries
      | KeyPress key =>
          modify (set_spec_edited true) ;;
          match key with
          | Key_Return | Key_Enter => _store_entry w
          | Key_Escape => modify (set_spec_edited false) ;; load_entries
          | Key_other _ => ret tt
          end
      | FocusOut => _store_entry w
      | OtherEvent => ret tt
      end
  | OtherObject => ret tt
  end ;;
  ret false.

Definition _hide_entries (num_new_labels : nat) : M state unit :=
  n <- gets (fun st => length (qlabels st)) ;;
  for_range num_new_labels n (fun i =>
    on_label i (setLabelVisible false) ;;
    on_lineedit i (setEditVisible false)).

Definition _show_entries (num_new_labels : nat) : M state unit :=
  num_tot_labels <- gets (fun st => length (qlabels st)) ;;
  if (num_tot_labels <? num_new_labels)%nat then
    for_range num_tot_labels num_new_labels (fun i =>
      modify (set_qlabels (fun l => l ++ [new_QLabel])) ;;
      on_label i (setLabelText (rt_label "dummy")) ;;
      modify (set_qlineedit (fun l => l ++ [new_QLineEdit])) ;;
      on_lineedit i (setObjectName "dummy") ;;
      on_lineedit i installEventFilter)
  else
    n_cur <- gets n_cur_labels ;;
    for_range n_cur num_new_labels (fun i =>
      on_label i (setLabelVisible true) ;;
      on_lineedit i (setEditVisible true)).

Definition update_UI (labels : list string) : M state unit :=
  modify (set_new_labels labels) ;;
  let num_new_labels := length labels in
  n_cur <- gets n_cur_labels ;;
  (if (num_new_labels <? n_cur)%nat then _hide_entries num_new_labels
   else if (n_cur <? num_new_labels)%nat then _show_entries num_new_labels
   else ret tt) ;;
  _ <- getitem "rt" ;;
  _ <- getitem "dm" ;;
  _ <- getitem "fo" ;;
  for_range 0 num_new_labels (fun i =>
    _ <- label_at i ;;
    l <- from_option IndexError (labels !! i) ;;
    on_label i (setLabelText (rt_label l)) ;;
    _ <- lineedit_at i ;;
    v <- getitem l ;;
    on_lineedit i (setText (py_str v)) ;;
    on_lineedit i (setObjectName l)) ;;
  modify (set_n_cur_labels num_new_labels) ;;
  sort_dict_freqs.

End Methods.

End FreqSpecs.

(** ** The widget [InputParams] *)

Module InputParams.
Import Py Eff.
Local Open Scope eff_scope.

(** Coefficient data as [numpy] reads it: numbers nested in lists, arrays
    and tuples. *)
#[warnings="-register-all"] Inductive ndarray :=
| Num (x : float)
| Arr (items : list ndarray)
| Tup (items : list ndarray).

Fixpoint common_prefix (a b : list nat) : list nat :=
  match a, b with
  | x :: a', y :: b' => if (x =? y)%nat then x :: common_prefix a' b' else []
  | _, _ => []
  end.

Definition common_shape (shapes : list (list nat)) : list nat :=
  match shapes with
  | [] => []
  | s :: rest => fold_left common_prefix rest s
  end.

(** The shape [numpy.asarray] finds: the dimensions on which all items
    agree (items of unequal length stay objects of a shorter shape). *)
Fixpoint shape (a : ndarray) : list nat :=
  match a with
  | Num _ => []
  | Arr items | Tup items => length items :: common_shape (List.map shape items)
  end.

(** [np.ndim(a)] *)
Definition np_ndim (a : ndarray) : nat := length (shape a).

(** The calls that leave the method, in the order they are made. *)
Inductive call :=
| Call_fo_update
| Call_fspec_update
| Call_aspec_update
| Call_wspec_update
| Call_wspec_updateElements
| Call_objectWizzard (dm : pyval)
| Call_method (name : string) (specs : gmap string pyval)
| Write_zpk
| Write_coeffs.

Section Widget.

(** Code outside the two files: the filter objects the library hands out
    with their two attributes, the reader's [objectWizzard], the design
    methods found by [getattr], and the [update] methods of the
    sub-widgets, which act on [fb.gD['selFilter']]. *)
Variable filter_obj : Type.
Variable zpk_t : Type.
Variable objectWizzard : pyval -> outcome filter_obj.
Variable call_method :
  filter_obj -> string -> gmap string pyval ->
  outcome (filter_obj * gmap string pyval).
Variable attr_zpk : filter_obj -> outcome zpk_t.
Variable attr_coeffs : filter_obj -> outcome ndarray.
Variable fo_update fspec_update aspec_update wspec_update wspec_updateElements :
  gmap string pyval -> outcome (gmap string pyval).

(** [fb.gD] with the entries the method touches, the attributes of the
    [InputParams] instance, and the record of outgoing calls. *)
Record state := mkState {
  selFilter : gmap string pyval;
  gD_zpk : option zpk_t;
  gD_coeffs : option ndarray;
  myFilter : option filter_obj;
  DEBUG : bool;
  trace : list call
}.

Definition set_selFilter (d : gmap string pyval) (st : state) : state :=
  {| selFilter := d; gD_zpk := gD_zpk st; gD_coeffs := gD_coeffs st;
     myFilter := myFilter st; DEBUG := DEBUG st; trace := trace st |}.

Definition set_gD_zpk (z : zpk_t) (st : state) : state :=
  {| selFilter := selFilter st; gD_zpk := Some z; gD_coeffs := gD_coeffs st;
     myFilter := myFilter st; DEBUG := DEBUG st;
     trace := trace st ++ [Write_zpk] |}.

Definition set_gD_coeffs (c : ndarray) (st : state) : state :=
  {| selFilter := selFilter st; gD_zpk := gD_zpk st; gD_coeffs := Some c;
     myFilter := myFilter st; DEBUG := DEBUG st;
     trace := trace st ++ [Write_coeffs] |}.

Definition set_myFilter (o : filter_obj) (st : state) : state :=
  {| selFilter := selFilter st; gD_zpk := gD_zpk st; gD_coeffs := gD_coeffs st;
     myFilter := Some o; DEBUG := DEBUG st; trace := trace st |}.

Definition log (c : call) (st : state) : state :=
  {| selFilter := selFilter st; gD_zpk := gD_zpk st; gD_coeffs := gD_coeffs st;
     myFilter := myFilter st; DEBUG := DEBUG st; trace := trace st ++ [c] |}.

(** [fb.gD['selFilter'][k]] *)
Definition sel (k : string) : M state pyval :=
  fun st => match selFilter st !! k with
            | Some v => (st, Ok v)
            | None => (st, Raise (KeyError k))
            end.

(** [self.myFilter] *)
Definition get_myFilter : M state filter_obj :=
  fun st => match myFilter st with
            | Some o => (st, Ok o)
            | None => (st, Raise (AttributeError "myFilter"))
            end.

(** A sub-widget method: logged, then run on [fb.gD['selFilter']]. *)
Definition widget_call (c : call)
    (f : gmap string pyval -> outcome (gmap string pyval)) : M state unit :=
  modify (log c) ;;
  d <- gets selFilter ;;
  d' <- lift (f d) ;;
  modify (set_selFilter d').

Definition writeAll : M state unit :=
  widget_call Call_fo_update fo_update ;;
  widget_call Call_fspec_update fspec_update ;;
  widget_call Call_aspec_update aspec_update ;;
  widget_call Call_wspec_update wspec_update.

(** The argument of the [print] under [DEBUG]:
    [dm + "." + rt + fo], read from [fb.gD['selFilter']]. *)
Definition debug_name : M state pyval :=
  dm <- sel "dm" ;;
  a <- lift (py_add dm (PStr ".")) ;;
  rt <- sel "rt" ;;
  b <- lift (py_add a rt) ;;
  fo <- sel "fo" ;;
  lift (py_add b fo).

(** What is stored for a coefficient attribute: a one-dimensional array gets
    the dummy denominator [[1]]. *)
Definition read_back (coeffs : ndarray) : ndarray :=
  if (np_ndim coeffs =? 1)%nat then Tup [coeffs; Arr [Num 1%float]]
  else coeffs.

(** The [print]s under [DEBUG] that close the method only read what has
    just been written and are left out. *)
Definition startDesignFilt : M state unit :=
  writeAll ;;
  debug <- gets DEBUG ;;
  (if debug then _ <- debug_name ;; ret tt else ret tt) ;;
  dm <- sel "dm" ;;
  modify (log (Call_objectWizzard dm)) ;;
  o <- lift (objectWizzard dm) ;;
  modify (set_myFilter o) ;;
  o <- get_myFilter ;;
  rt <- sel "rt" ;;
  fo <- sel "fo" ;;
  name <- lift (py_add rt fo) ;;
  (match name with
   | PStr n =>
       specs <- gets selFilter ;;
       modify (log (Call_method n specs)) ;;
       r <- lift (call_method o n specs) ;;
       modify (set_myFilter (fst r)) ;;
       modify (set_selFilter (snd r))
   | _ => raise TypeError
   end) ;;
  widget_call Call_fo_update fo_update ;;
  widget_call Call_wspec_updateElements wspec_updateElements ;;
  o <- get_myFilter ;;
  z <- lift (attr_zpk o) ;;
  modify (set_gD_zpk z) ;;
  o <- get_myFilter ;;
  c <- lift (attr_coeffs o) ;;
  (if (np_ndim c =? 1)%nat then
     o <- get_myFilter ;;
     c <- lift (attr_coeffs o) ;;
     modify (set_gD_coeffs (Tup [c; Arr [Num 1%float]]))
   else
     o <- get_myFilter ;;
     c <- lift (attr_coeffs o) ;;
     modify (set_gD_coeffs c)).

End Widget.

Arguments selFilter {filter_obj zpk_t} _.
Arguments gD_zpk {filter_obj zpk_t} _.
Arguments gD_coeffs {filter_obj zpk_t} _.
Arguments myFilter {filter_obj zpk_t} _.
Arguments DEBUG {filter_obj zpk_t} _.
Arguments trace {filter_obj zpk_t} _.

End InputParams.

(** ** [InputParams.chooseDesignMethod] *)

Module DesignChoice.
Import Py Eff.
Local Open Scope eff_scope.

(** The sub-widgets of [InputParams] and the calls [chooseDesignMethod]
    makes on them. *)
Inductive subwidget := fo | fspec | aspec | wspec.

Inductive call :=
| update (w : subwidget)
| setElements (w : subwidget) (newLabels : list string)
| setVisible (w : subwidget) (visible : bool)
| setEnabled (w : subwidget) (enabled : bool).

(** [fb.gD['filterTree'][rt][ft][dm][fo]] is a dictionary with the entries
    ['par'] (parameter labels) and ['enb'] (enabled widgets). *)
Abbreviation tree_leaf := (gmap string (list string)).
Abbreviation tree :=
  (gmap string (gmap string (gmap string (gmap string tree_leaf)))).

(** [fb.gD] as far as the method reads it, the three attributes it
    assigns ([None] before the first assignment) and the calls made. *)
Record state := mkState {
  selFilter : gmap string pyval;
  filterTree : tree;
  freqParams : option (list string);
  ampParams : option (list string);
  weightParams : option (list string);
  calls : list call
}.

Definition set_selFilter (d : gmap string pyval) (st : state) : state :=
  {| selFilter := d; filterTree := filterTree st; freqParams := freqParams st;
     ampParams := ampParams st; weightParams := weightParams st;
     calls := calls st |}.

Definition set_freqParams (l : list string) (st : state) : state :=
  {| selFilter := selFilter st; filterTree := filterTree st;
     freqParams := Some l; ampParams := ampParams st;
     weightParams := weightParams st; calls := calls st |}.

Definition set_ampParams (l : list string) (st : state) : state :=
  {| selFilter := selFilter st; filterTree := filterTree st;
     freqParams := freqParams st; ampParams := Some l;
     weightParams := weightParams st; calls := calls st |}.

Definition set_weightParams (l : list string) (st : state) : state :=
  {| selFilter := selFilter st; filterTree := filterTree st;
     freqParams := freqParams st; ampParams := ampParams st;
     weightParams := Some l; calls := calls st |}.

Definition log (c : call) (st : state) : state :=
  {| selFilter := selFilter st; filterTree := filterTree st;
     freqParams := freqParams st; ampParams := ampParams st;
     weightParams := weightParams st; calls := calls st ++ [c] |}.

(** [fb.gD['selFilter'][k]] *)
Definition sel (k : string) : M state pyval :=
  fun st => match selFilter st !! k with
            | Some v => (st, Ok v)
            | None => (st, Raise (KeyError k))
            end.

(** [d[k]] for a dictionary with string keys and any value [k]: a key that
    is no string is in no such dictionary (its text is not kept in the
    [KeyError]). *)
Definition subscript {V} (d : gmap string V) (k : pyval) : outcome V :=
  match k with
  | PStr s =>
      match d !! s with
      | Some v => Ok v
      | None => Raise (KeyError s)
      end
  | _ => Raise (KeyError "")
  end.

(** [fb.gD['filterTree'][rt][ft][dm][fo][entry]] *)
Definition tree_entry (rt ft dm fo : pyval) (entry : string)
    : M state (list string) :=
  t <- gets filterTree ;;
  t1 <- lift (subscript t rt) ;;
  t2 <- lift (subscript t1 ft) ;;
  t3 <- lift (subscript t2 dm) ;;
  t4 <- lift (subscript t3 fo) ;;
  lift (subscript t4 (PStr entry)).

(** [l[0] == c]; an empty label has no first letter. *)
Definition first_letter_is (c : Ascii.ascii) (l : string) : outcome bool :=
  match l with
  | EmptyString => Raise IndexError
  | String a _ => Ok (Ascii.eqb a c)
  end.

(** [[l for l in myParams if l[0] == c]] *)
Fixpoint labels_with (c : Ascii.ascii) (myParams : list string)
    : outcome (list string) :=
  match myParams with
  | [] => Ok []
  | l :: rest =>
      match first_letter_is c l with
      | Raise e => Raise e
      | Ok b =>
          match labels_with c rest with
          | Raise e => Raise e
          | Ok r => Ok (if b then l :: r else r)
          end
      end
  end.

(** [name in myEnbWdg] *)
Definition enabled_in (name : string) (myEnbWdg : list string) : bool :=
  existsb (String.eqb name) myEnbWdg.

(** [params != []] *)
Definition not_empty (params : list string) : bool :=
  match params with [] => false | _ :: _ => true end.

Section Method.

(** [self.fo.update()], the method of the order widget that [writeAll]
    calls too; the remaining calls on sub-widgets are recorded only. *)
Variable fo_update : gmap string pyval -> outcome (gmap string pyval).

(** The [print]s under [DEBUG] show what has been read and are left out. *)
Definition chooseDesignMethod : M state unit :=
  rt <- sel "rt" ;;
  ft <- sel "ft" ;;
  dm <- sel "dm" ;;
  fo_ <- sel "fo" ;;
  myParams <- tree_entry rt ft dm fo_ "par" ;;
  myEnbWdg <- tree_entry rt ft dm fo_ "enb" ;;
  f <- lift (labels_with "F"%char myParams) ;;
  modify (set_freqParams f) ;;
  a <- lift (labels_with "A"%char myParams) ;;
  modify (set_ampParams a) ;;
  w <- lift (labels_with "W"%char myParams) ;;
  modify (set_weightParams w) ;;
  modify (log (update fo)) ;;
  d <- gets selFilter ;;
  d' <- lift (fo_update d) ;;
  modify (set_selFilter d') ;;
  modify (log (setElements fspec f)) ;;
  modify (log (setVisible aspec (not_empty a))) ;;
  modify (log (setEnabled aspec (enabled_in "aspec" myEnbWdg))) ;;
  modify (log (setElements aspec a)) ;;
  modify (log (setVisible wspec (not_empty w))) ;;
  modify (log (setEnabled wspec (enabled_in "wspec" myEnbWdg))) ;;
  modify (log (setElements wspec w)).

End Method.

End DesignChoice.

(** ** Concrete inputs

    Stand-ins for the code outside the two files and a few program states,
    on which the methods are run in the examples below. *)

Module Examples.
Import Py Eff FreqSpecs.

(** [simple_eval] on the literals the examples type in; every other text
    is taken as rejected. *)
Definition eval_literal (s : string) : outcome pyval :=
  if String.eqb s "1" then Ok (PFloat 1)
  else if String.eqb s "1000" then Ok (PFloat 1000)
  else if String.eqb s "0.25" then Ok (PFloat 0.25)
  else if String.eqb s "0.5" then Ok (PFloat 0.5)
  else Raise (EvalError s).

(** [str] on the values the examples show (shortest form that reads back,
    as Python 3 prints a float). *)
Definition str_of (v : pyval) : string :=
  match v with
  | PStr s => s
  | PBool b => if b then "True" else "False"
  | PFloat x =>
      if PrimFloat.eqb x 1000 then "1000.0"
      else if PrimFloat.eqb x 1 then "1.0"
      else if PrimFloat.eqb x 0x1.fffffffffffffp-1 then "0.9999999999999999"
      else if PrimFloat.eqb x 0.5 then "0.5"
      else if PrimFloat.eqb x 0.25 then "0.25"
      else if PrimFloat.eqb x 0.125 then "0.125"
      else "float"
  end.

(** ['{:.3g}'.format] on the values the examples show; a string does not
    take the format. *)
Definition format_3g (v : pyval) : option string :=
  match v with
  | PStr _ => None
  | PBool b => Some (if b then "1" else "0")
  | PFloat x =>
      if PrimFloat.eqb x 1000 then Some "1e+03"
      else if PrimFloat.eqb x 1 then Some "1"
      else if PrimFloat.eqb x 0x1.fffffffffffffp-1 then Some "1"
      else if PrimFloat.eqb x 0.5 then Some "0.5"
      else if PrimFloat.eqb x 0.25 then Some "0.25"
      else if PrimFloat.eqb x 0.125 then Some "0.125"
      else Some "float"
  end.

Definition plain_label (s : string) : string := s.

Definition a_lineedit (name txt : string) (focus : bool) : QLineEdit :=
  {| objectName := name; text := txt; hasFocus := focus;
     edit_visible := true; eventFilterInstalled := true |}.

Definition a_label (txt : string) : QLabel :=
  {| label_text := txt; label_visible := true |}.

(** A filter dictionary sampled at [f_S], with the sort flag as given. *)
Definition filter_dict (f_S : float) (sort : bool) : gmap string pyval :=
  list_to_map
    [("rt", PStr "LP"); ("dm", PStr "cheby1"); ("fo", PStr "man");
     ("f_S", PFloat f_S); ("freq_specs_sort", PBool sort);
     ("F_PB", PFloat 0.125); ("F_SB", PFloat 0.25);
     ("F_PB2", PFloat 0.375); ("F_SB2", PFloat 0.5)].

(** The user has typed [txt] into the focused field [F_PB]. *)
Definition editing (f_S : float) (sort : bool) (txt : string) : state :=
  {| fil := filter_dict f_S sort;
     qlabels := [a_label "F_PB"; a_label "F_SB"];
     qlineedit := [a_lineedit "F_PB" txt true; a_lineedit "F_SB" "0.25" false];
     new_labels := ["F_PB"; "F_SB"];
     n_cur_labels := 2;
     spec_edited := true;
     sigSpecsChanged := 0 |}.

(** Sorting is on and the pass band edge lies above the stop band edge. *)
Definition out_of_order : state :=
  {| fil := <["F_PB" := PFloat 0.5]> (filter_dict 1 true);
     qlabels := [a_label "F_PB"; a_label "F_SB"];
     qlineedit := [a_lineedit "F_PB" "0.5" false; a_lineedit "F_SB" "0.25" false];
     new_labels := ["F_PB"; "F_SB"];
     n_cur_labels := 2;
     spec_edited := false;
     sigSpecsChanged := 0 |}.

(** Sorting is on; a third, hidden line edit still carries the name
    [F_PB] that the first one was given later. *)
Definition relabelled : state :=
  {| fil := filter_dict 1 true;
     qlabels := [a_label "F_PB"; a_label "F_SB";
                 {| label_text := "F_PB"; label_visible := false |}];
     qlineedit := [a_lineedit "F_PB" "0.125" false;
                   a_lineedit "F_SB" "0.25" false;
                   setEditVisible false (a_lineedit "F_PB" "0.125" false)];
     new_labels := ["F_PB"; "F_SB"];
     n_cur_labels := 2;
     spec_edited := false;
     sigSpecsChanged := 0 |}.

(** The values under the names of the line edits, in widget order. *)
Definition values_in_widget_order (st : state) : list (option pyval) :=
  (fun w => fil st !! objectName w) <$> qlineedit st.

(** The widget after [update_UI] with the four band-pass labels. *)
Definition bandpass_shown : state :=
  state_of (update_UI str_of format_3g plain_label
              ["F_SB"; "F_PB"; "F_PB2"; "F_SB2"] (init (filter_dict 1 false))).

(** A filter library of two design classes: [equiripple] designs an FIR
    filter (coefficients [b]), [cheby1] an IIR filter (coefficients
    [[b, a]]); each has the one design method [LPman]. *)
Record design_obj := mkDesign {
  design : string;
  obj_zpk : option InputParams.ndarray;
  obj_coeffs : option InputParams.ndarray
}.

Definition toy_objectWizzard (dm : pyval) : outcome design_obj :=
  match dm with
  | PStr s =>
      if (String.eqb s "equiripple" || String.eqb s "cheby1")%bool
      then Ok {| design := s; obj_zpk := None; obj_coeffs := None |}
      else Raise (AttributeError s)
  | _ => Raise TypeError
  end.

Definition toy_call_method (o : design_obj) (name : string)
    (specs : gmap string pyval) : outcome (design_obj * gmap string pyval) :=
  if String.eqb name "LPman" then
    if String.eqb (design o) "equiripple" then
      Ok ({| design := design o;
             obj_zpk := Some (InputParams.Tup
                                [InputParams.Arr [InputParams.Num (-1);
                                                  InputParams.Num (-1)];
                                 InputParams.Arr [];
                                 InputParams.Num 0.25]);
             obj_coeffs := Some (InputParams.Arr
                                   [InputParams.Num 0.25; InputParams.Num 0.5;
                                    InputParams.Num 0.25]) |}, specs)
    else
      Ok ({| design := design o;
             obj_zpk := Some (InputParams.Tup
                                [InputParams.Arr [InputParams.Num (-1)];
                                 InputParams.Arr [InputParams.Num 0.5];
                                 InputParams.Num 0.25]);
             obj_coeffs := Some (InputParams.Arr
                                   [InputParams.Arr [InputParams.Num 0.25;
                                                     InputParams.Num 0.25];
                                    InputParams.Arr [InputParams.Num 1;
                                                     InputParams.Num (-0.5)]]) |},
          specs)
  else Raise (AttributeError name).

Definition toy_attr_zpk (o : design_obj) : outcome InputParams.ndarray :=
  match obj_zpk o with
  | Some z => Ok z
  | None => Raise (AttributeError "zpk")
  end.

Definition toy_attr_coeffs (o : design_obj) : outcome InputParams.ndarray :=
  match obj_coeffs o with
  | Some c => Ok c
  | None => Raise (AttributeError "coeffs")
  end.

(** Sub-widgets whose entries already agree with [fb.gD['selFilter']]. *)
Definition widget_in_sync (d : gmap string pyval) : outcome (gmap string pyval) :=
  Ok d.

Definition design_specs (dm : string) : gmap string pyval :=
  list_to_map
    [("rt", PStr "LP"); ("ft", PStr "FIR"); ("dm", PStr dm);
     ("fo", PStr "man"); ("F_pb", PFloat 0.125); ("F_sb", PFloat 0.25)].

(** The state of [InputParams] when the design button is clicked. *)
Definition design_request (dm : string) (debug : bool)
    : InputParams.state design_obj InputParams.ndarray :=
  InputParams.mkState design_obj InputParams.ndarray
    (design_specs dm) None None None debug [].

Definition toy_startDesignFilt :=
  InputParams.startDesignFilt design_obj InputParams.ndarray
    toy_objectWizzard toy_call_method toy_attr_zpk toy_attr_coeffs
    widget_in_sync widget_in_sync widget_in_sync widget_in_sync widget_in_sync.

(** A later click on the design button, with the coefficients of an
    earlier design stored and a design method the library does not have. *)
Definition second_request
    : InputParams.state design_obj InputParams.ndarray :=
  InputParams.mkState design_obj InputParams.ndarray
    (design_specs "butter") None
    (Some (InputParams.Tup
             [InputParams.Arr [InputParams.Num 0.5; InputParams.Num 0.5];
              InputParams.Arr [InputParams.Num 1]]))
    None false [].

(** A line edit that was created but never named sits between two named
    ones ([fb.fil[0]] has no key ["dummy"]). *)
Definition with_dummy (sort : bool) : state :=
  {| fil := filter_dict 1 sort;
     qlabels := [a_label "F_PB"; a_label "dummy"; a_label "F_SB"];
     qlineedit := [a_lineedit "F_PB" "old" false;
                   a_lineedit "dummy" "old" false;
                   a_lineedit "F_SB" "old" false];
     new_labels := ["F_PB"; "dummy"; "F_SB"];
     n_cur_labels := 3;
     spec_edited := false;
     sigSpecsChanged := 0 |}.

(** The widget after the four band-pass labels and then the two low-pass
    labels: four line edits, the last two hidden. *)
Definition lowpass_shown : state :=
  state_of (update_UI str_of format_3g plain_label ["F_PB"; "F_SB"]
              bandpass_shown).

(** A filter tree with one design, and one whose label list is damaged by
    an empty label. *)
Definition tree_of (par : list string) : DesignChoice.tree :=
  {[ "LP" := {[ "IIR" := {[ "cheby1" := {[ "man" :=
       ({[ "par" := par; "enb" := ["fo"; "fspec"; "aspec"] ]}
          : gmap string (list string)) ]} ]} ]} ]}.

Definition choosing (par : list string) : DesignChoice.state :=
  DesignChoice.mkState
    (list_to_map [("rt", PStr "LP"); ("ft", PStr "IIR");
                  ("dm", PStr "cheby1"); ("fo", PStr "man")])
    (tree_of par) None None None [].

End Examples.

(** ** Reasoning rules for the monad *)

Module EffFacts.
Import Py Eff.

Section Rules.
Context {S : Type}.

(** [m] keeps the property [P] of the state, whether it returns or raises. *)
Definition preserves {A} (P : S -> Prop) (m : M S A) : Prop :=
  forall s, P s -> P (state_of (m s)).

(** Every exception [m] raises satisfies [E]. *)
Definition raises_only {A} (E : exn -> Prop) (m : M S A) : Prop :=
  forall s e, result_of (m s) = Raise e -> E e.

Lemma preserves_ret {A} (P : S -> Prop) (a : A) : preserves P (ret a).
Proof. intros s H. exact H. Qed.

Lemma preserves_raise {A} (P : S -> Prop) e : preserves P (@raise S A e).
Proof. intros s H. exact H. Qed.

Lemma preserves_lift {A} (P : S -> Prop) (r : outcome A) : preserves P (lift r).
Proof. intros s H. exact H. Qed.

Lemma preserves_gets {A} (P : S -> Prop) (f : S -> A) : preserves P (gets f).
Proof. intros s H. exact H. Qed.

Lemma preserves_from_option {A} (P : S -> Prop) e (o : option A) :
  preserves P (from_option e o).
Proof. destruct o; intros s H; exact H. Qed.

Lemma preserves_modify (P : S -> Prop) (f : S -> S) :
  (forall s, P s -> P (f s)) -> preserves P (modify f).
Proof. intros Hf s H. apply Hf, H. Qed.

Lemma preserves_bind {A B} (P : S -> Prop) (m : M S A) (k : A -> M S B) :
  preserves P m -> (forall a, preserves P (k a)) -> preserves P (bind m k).
Proof.
  intros Hm Hk s H. unfold bind, state_of.
  specialize (Hm s H). unfold state_of in Hm.
  destruct (m s) as [s' [a|e]]; simpl in *.
  - apply Hk, Hm.
  - exact Hm.
Qed.

Lemma preserves_for_each (P : S -> Prop) idx (body : nat -> M S unit) :
  (forall i, preserves P (body i)) -> preserves P (for_each idx body).
Proof.
  intros Hb. induction idx as [|i idx IH]; simpl.
  - apply preserves_ret.
  - apply preserves_bind; [apply Hb | intros _; exact IH].
Qed.

Lemma preserves_for_range (P : S -> Prop) lo hi (body : nat -> M S unit) :
  (forall i, preserves P (body i)) -> preserves P (for_range lo hi body).
Proof. intros Hb. apply preserves_for_each, Hb. Qed.

Lemma preserves_collect {A} (P : S -> Prop) idx (f : nat -> M S A) :
  (forall i, preserves P (f i)) -> preserves P (collect idx f).
Proof.
  intros Hf. induction idx as [|i idx IH]; simpl.
  - apply preserves_ret.
  - apply preserves_bind; [apply Hf | intros a].
    apply preserves_bind; [exact IH | intros l; apply preserves_ret].
Qed.

Lemma raises_only_ret {A} (E : exn -> Prop) (a : A) : raises_only E (@ret S A a).
Proof. intros s e H. discriminate H. Qed.

Lemma raises_only_gets {A} (E : exn -> Prop) (f : S -> A) : raises_only E (gets f).
Proof. intros s e H. discriminate H. Qed.

Lemma raises_only_modify (E : exn -> Prop) (f : S -> S) : raises_only E (modify f).
Proof. intros s e H. discriminate H. Qed.

Lemma raises_only_raise {A} (E : exn -> Prop) e : E e -> raises_only E (@raise S A e).
Proof. intros He s e' H. injection H as <-. exact He. Qed.

Lemma raises_only_lift {A} (E : exn -> Prop) (r : outcome A) :
  (forall e, r = Raise e -> E e) -> raises_only E (@lift S A r).
Proof. intros Hr s e H. apply Hr, H. Qed.

Lemma raises_only_from_option {A} (E : exn -> Prop) e (o : option A) :
  E e -> raises_only E (@from_option S A e o).
Proof.
  intros He. destruct o; [apply raises_only_ret | apply raises_only_raise, He].
Qed.

Lemma raises_only_bind {A B} (E : exn -> Prop) (m : M S A) (k : A -> M S B) :
  raises_only E m -> (forall a, raises_only E (k a)) -> raises_only E (bind m k).
Proof.
  intros Hm Hk s e. unfold bind, result_of.
  specialize (Hm s). unfold result_of in Hm.
  destruct (m s) as [s' [a|e']]; simpl in *.
  - apply Hk.
  - intros H. injection H as <-. apply Hm. reflexivity.
Qed.

Lemma raises_only_for_each (E : exn -> Prop) idx (body : nat -> M S unit) :
  (forall i, raises_only E (body i)) -> raises_only E (for_each idx body).
Proof.
  intros Hb. induction idx as [|i idx IH]; simpl.
  - apply raises_only_ret.
  - apply raises_only_bind; [apply Hb | intros _; exact IH].
Qed.

Lemma raises_only_for_range (E : exn -> Prop) lo hi (body : nat -> M S unit) :
  (forall i, raises_only E (body i)) -> raises_only E (for_range lo hi body).
Proof. intros Hb. apply raises_only_for_each, Hb. Qed.

Lemma raises_only_collect {A} (E : exn -> Prop) idx (f : nat -> M S A) :
  (forall i, raises_only E (f i)) -> raises_only E (collect idx f).
Proof.
  intros Hf. induction idx as [|i idx IH]; simpl.
  - apply raises_only_ret.
  - apply raises_only_bind; [apply Hf | intros a].
    apply raises_only_bind; [exact IH | intros l; apply raises_only_ret].
Qed.

(** Running a [bind] whose first part returns. *)
Lemma bind_ok {A B} (m : M S A) (k : A -> M S B) s s' a :
  m s = (s', Ok a) -> bind m k s = k a s'.
Proof. intros H. unfold bind. rewrite H. reflexivity. Qed.

Lemma bind_raise {A B} (m : M S A) (k : A -> M S B) s s' e :
  m s = (s', Raise e) -> bind m k s = (s', Raise e).
Proof. intros H. unfold bind. rewrite H. reflexivity. Qed.

(** A [bind] that returns: its first part returned, then the rest did. *)
Lemma bind_ok_inv {A B} (m : M S A) (k : A -> M S B) s s2 b :
  bind m k s = (s2, Ok b) ->
  exists s1 a, m s = (s1, Ok a) /\ k a s1 = (s2, Ok b).
Proof.
  unfold bind. destruct (m s) as [s1 [a|e]]; intros H.
  - exists s1, a. split; [reflexivity | exact H].
  - discriminate H.
Qed.

End Rules.

Create HintDb eff.
#[export] Hint Resolve preserves_ret preserves_raise preserves_lift
  preserves_gets preserves_from_option : eff.
#[export] Hint Resolve raises_only_ret raises_only_gets raises_only_modify : eff.

(** Splits a goal about a composed method along its [bind]s and loops,
    without looking inside the methods it is composed of. *)
Ltac step_preserves :=
  repeat match goal with
    | |- preserves _ (bind _ _) => apply preserves_bind; [ | intros ? ]
    | |- preserves _ (for_range _ _ _) => apply preserves_for_range; intros ?
    | |- preserves _ (for_each _ _) => apply preserves_for_each; intros ?
    | |- preserves _ (collect _ _) => apply preserves_collect; intros ?
    | |- preserves _ (ret _) => apply preserves_ret
    | |- preserves _ (raise _) => apply preserves_raise
    | |- preserves _ (lift _) => apply preserves_lift
    | |- preserves _ (gets _) => apply preserves_gets
    | |- preserves _ (from_option _ _) => apply preserves_from_option
    | |- preserves _ (if ?b then _ else _) => destruct b
    end.

Ltac step_raises :=
  repeat match goal with
    | |- raises_only _ (bind _ _) => apply raises_only_bind; [ | intros ? ]
    | |- raises_only _ (for_range _ _ _) => apply raises_only_for_range; intros ?
    | |- raises_only _ (for_each _ _) => apply raises_only_for_each; intros ?
    | |- raises_only _ (collect _ _) => apply raises_only_collect; intros ?
    | |- raises_only _ (ret _) => apply raises_only_ret
    | |- raises_only _ (gets _) => apply raises_only_gets
    | |- raises_only _ (modify _) => apply raises_only_modify
    | |- raises_only _ (if ?b then _ else _) => destruct b
    end.

End EffFacts.

(** ** The order of binary64 numbers *)

Module FloatOrder.

(** A rank of the numbers that follows their order: sign class first, then
    exponent and mantissa (reversed below zero). *)
Definition rank (f : spec_float) : Z * Z * Z :=
  match f with
  | S754_nan => (3, 0, 0)
  | S754_infinity true => (-2, 0, 0)
  | S754_infinity false => (2, 0, 0)
  | S754_zero _ => (0, 0, 0)
  | S754_finite true m e => (-1, - e, - Z.pos m)
  | S754_finite false m e => (1, e, Z.pos m)
  end%Z.

Definition rank_le (a b : Z * Z * Z) : Prop :=
  (a.1.1 < b.1.1
   \/ (a.1.1 = b.1.1
       /\ (a.1.2 < b.1.2 \/ (a.1.2 = b.1.2 /\ a.2 <= b.2))))%Z.

Definition rank_lt (a b : Z * Z * Z) : Prop :=
  (a.1.1 < b.1.1
   \/ (a.1.1 = b.1.1
       /\ (a.1.2 < b.1.2 \/ (a.1.2 = b.1.2 /\ a.2 < b.2))))%Z.

Lemma SFleb_rank a b :
  a <> S754_nan -> b <> S754_nan ->
  (SFleb a b = true <-> rank_le (rank a) (rank b)).
Proof.
  intros Ha Hb. unfold SFleb, rank_le.
  destruct a as [sa|sa| |sa ma ea], b as [sb|sb| |sb mb eb]; try congruence;
    try destruct sa; try destruct sb; simpl;
    try (split; [intros _; lia | reflexivity]);
    try (split; [discriminate | lia]).
  - change (Pos.compare_cont Eq ma mb) with (Pos.compare ma mb).
    destruct (Z.compare_spec ea eb), (Pos.compare_spec ma mb); simpl;
      split; intros; try discriminate; try reflexivity; lia.
  - change (Pos.compare_cont Eq ma mb) with (Pos.compare ma mb).
    destruct (Z.compare_spec ea eb), (Pos.compare_spec ma mb); simpl;
      split; intros; try discriminate; try reflexivity; lia.
Qed.

Lemma SFltb_rank a b :
  a <> S754_nan -> b <> S754_nan ->
  (SFltb a b = true <-> rank_lt (rank a) (rank b)).
Proof.
  intros Ha Hb. unfold SFltb, rank_lt.
  destruct a as [sa|sa| |sa ma ea], b as [sb|sb| |sb mb eb]; try congruence;
    try destruct sa; try destruct sb; simpl;
    try (split; [intros _; lia | reflexivity]);
    try (split; [discriminate | lia]).
  - change (Pos.compare_cont Eq ma mb) with (Pos.compare ma mb).
    destruct (Z.compare_spec ea eb), (Pos.compare_spec ma mb); simpl;
      split; intros; try discriminate; try reflexivity; lia.
  - change (Pos.compare_cont Eq ma mb) with (Pos.compare ma mb).
    destruct (Z.compare_spec ea eb), (Pos.compare_spec ma mb); simpl;
      split; intros; try discriminate; try reflexivity; lia.
Qed.

Lemma not_nan x : PrimFloat.eqb x x = true -> Prim2SF x <> S754_nan.
Proof.
  rewrite FloatAxioms.eqb_spec. unfold SFeqb. intros H E. rewrite E in H. discriminate H.
Qed.

Lemma leb_rank x y :
  PrimFloat.eqb x x = true -> PrimFloat.eqb y y = true ->
  (PrimFloat.leb x y = true <-> rank_le (rank (Prim2SF x)) (rank (Prim2SF y))).
Proof.
  intros Hx Hy. rewrite FloatAxioms.leb_spec. apply SFleb_rank; apply not_nan; assumption.
Qed.

Lemma ltb_rank x y :
  PrimFloat.eqb x x = true -> PrimFloat.eqb y y = true ->
  (PrimFloat.ltb x y = true <-> rank_lt (rank (Prim2SF x)) (rank (Prim2SF y))).
Proof.
  intros Hx Hy. rewrite FloatAxioms.ltb_spec. apply SFltb_rank; apply not_nan; assumption.
Qed.

Lemma ltb_leb x y :
  PrimFloat.eqb x x = true -> PrimFloat.eqb y y = true ->
  PrimFloat.ltb x y = true -> PrimFloat.leb x y = true.
Proof.
  intros Hx Hy H. apply (ltb_rank x y Hx Hy) in H. apply (leb_rank x y Hx Hy).
  unfold rank_lt, rank_le in *. lia.
Qed.

Lemma not_ltb_leb x y :
  PrimFloat.eqb x x = true -> PrimFloat.eqb y y = true ->
  PrimFloat.ltb y x = false -> PrimFloat.leb x y = true.
Proof.
  intros Hx Hy H. apply (leb_rank x y Hx Hy).
  assert (Hn : ~ rank_lt (rank (Prim2SF y)) (rank (Prim2SF x))).
  { intros Hlt. apply (ltb_rank y x Hy Hx) in Hlt. congruence. }
  unfold rank_lt, rank_le in *. lia.
Qed.

Lemma leb_trans x y z :
  PrimFloat.eqb x x = true -> PrimFloat.eqb y y = true ->
  PrimFloat.eqb z z = true ->
  PrimFloat.leb x y = true -> PrimFloat.leb y z = true ->
  PrimFloat.leb x z = true.
Proof.
  intros Hx Hy Hz H1 H2.
  apply (leb_rank x y Hx Hy) in H1. apply (leb_rank y z Hy Hz) in H2.
  apply (leb_rank x z Hx Hz). unfold rank_le in *. lia.
Qed.

End FloatOrder.

(** ** [list.sort] on numbers *)

Module SortFacts.
Import Py FloatOrder.

Lemma py_lt_numbers a b x y :
  as_number a = Some x -> as_number b = Some y ->
  py_lt a b = Ok (PrimFloat.ltb x y).
Proof.
  destruct a, b; simpl; intros H1 H2; try discriminate;
    injection H1 as <-; injection H2 as <-; reflexivity.
Qed.

Lemma insort_perm x l : forall r, insort x l = Ok r -> Permutation (x :: l) r.
Proof.
  induction l as [|y l IH]; simpl; intros r H.
  - injection H as <-. reflexivity.
  - destruct (py_lt y x) as [[|]|e]; [ | | discriminate H ].
    + destruct (insort x l) as [r'|e]; [ | discriminate H ].
      injection H as <-. rewrite perm_swap. apply perm_skip, IH. reflexivity.
    + injection H as <-. reflexivity.
Qed.

Lemma list_sort_perm l : forall s, list_sort l = Ok s -> Permutation l s.
Proof.
  induction l as [|x l IH]; simpl; intros s H.
  - injection H as <-. reflexivity.
  - destruct (list_sort l) as [s'|e]; [ | discriminate H ].
    rewrite (IH s' eq_refl). apply insort_perm, H.
Qed.

Lemma py_le_trans a b c :
  ordered_number a -> ordered_number b -> ordered_number c ->
  py_le a b -> py_le b c -> py_le a c.
Proof.
  intros (x & Hx & Hxn) (y & Hy & Hyn) (z & Hz & Hzn).
  intros (x' & y' & Hx' & Hy' & H1) (y'' & z' & Hy'' & Hz' & H2).
  exists x, z. split; [exact Hx | split; [exact Hz | ] ].
  assert (x' = x) by congruence. assert (y' = y) by congruence.
  assert (y'' = y) by congruence. assert (z' = z) by congruence. subst.
  apply (leb_trans x y z); assumption.
Qed.

Lemma insort_sorted x l :
  ordered_number x -> Forall ordered_number l -> StronglySorted py_le l ->
  exists r, insort x l = Ok r /\ StronglySorted py_le r.
Proof.
  intros Hx. induction l as [|y l IH]; intros Hl Hs; simpl.
  - exists [x]. split; [reflexivity | repeat constructor].
  - apply Forall_cons in Hl as [Hy Hl].
    apply StronglySorted_inv in Hs as [Hs Hyl].
    destruct Hx as (fx & Hfx & Hxn). destruct Hy as (fy & Hfy & Hyn).
    rewrite (py_lt_numbers y x fy fx Hfy Hfx).
    destruct (PrimFloat.ltb fy fx) eqn:Hlt.
    + destruct IH as (r & Hr & Hrs); [assumption | assumption | ].
      rewrite Hr. exists (y :: r). split; [reflexivity|].
      constructor; [exact Hrs|].
      apply (Permutation_Forall (insort_perm x l r Hr)).
      constructor; [ | exact Hyl ].
      exists fy, fx. split; [exact Hfy | split; [exact Hfx | ] ].
      apply ltb_leb; assumption.
    + exists (x :: y :: l). split; [reflexivity|].
      assert (Hxy : py_le x y).
      { exists fx, fy. split; [exact Hfx | split; [exact Hfy | ] ].
        apply not_ltb_leb; assumption. }
      constructor; [constructor; assumption | ].
      constructor; [exact Hxy|].
      rewrite List.Forall_forall in *. intros z Hz.
      apply (py_le_trans x y z); eauto.
      * exists fx. split; assumption.
      * exists fy. split; assumption.
Qed.

(** On numbers without a NaN the sort returns, and what it returns is the
    same values in ascending order. *)
Lemma list_sort_ordered l :
  Forall ordered_number l ->
  exists s, list_sort l = Ok s /\ Permutation l s /\ StronglySorted py_le s.
Proof.
  induction l as [|x l IH]; intros Hl; simpl.
  - exists []. split; [reflexivity | split; [reflexivity | constructor] ].
  - apply Forall_cons in Hl as [Hx Hl].
    destruct (IH Hl) as (s & Hs & Hperm & Hsorted). rewrite Hs.
    destruct (insort_sorted x s Hx) as (r & Hr & Hrs).
    { apply (Permutation_Forall Hperm), Hl. }
    { exact Hsorted. }
    exists r. split; [exact Hr | split; [ | exact Hrs] ].
    rewrite Hperm. apply insort_perm, Hr.
Qed.

End SortFacts.

(** ** Properties of [InputFreqSpecs] *)

Module FreqSpecsFacts.
Import Py Eff EffFacts FreqSpecs.
Local Open Scope eff_scope.

(** *** The primitive accesses *)

Lemma getitem_run k st :
  getitem k st = (st, match fil st !! k with
                      | Some v => Ok v
                      | None => Raise (KeyError k)
                      end).
Proof. unfold getitem. destruct (fil st !! k); reflexivity. Qed.

Lemma getitem_some k v st : fil st !! k = Some v -> getitem k st = (st, Ok v).
Proof. intros H. rewrite getitem_run, H. reflexivity. Qed.

Lemma lineedit_at_run i st :
  lineedit_at i st = (st, match qlineedit st !! i with
                          | Some w => Ok w
                          | None => Raise IndexError
                          end).
Proof. unfold lineedit_at. destruct (qlineedit st !! i); reflexivity. Qed.

Lemma label_at_run i st :
  label_at i st = (st, match qlabels st !! i with
                       | Some w => Ok w
                       | None => Raise IndexError
                       end).
Proof. unfold label_at. destruct (qlabels st !! i); reflexivity. Qed.

Lemma on_lineedit_run i f st :
  on_lineedit i f st =
  match qlineedit st !! i with
  | Some w => (set_qlineedit (fun l => <[i := f w]> l) st, Ok tt)
  | None => (st, Raise IndexError)
  end.
Proof.
  unfold on_lineedit, bind. rewrite lineedit_at_run.
  destruct (qlineedit st !! i); reflexivity.
Qed.

Lemma on_label_run i f st :
  on_label i f st =
  match qlabels st !! i with
  | Some w => (set_qlabels (fun l => <[i := f w]> l) st, Ok tt)
  | None => (st, Raise IndexError)
  end.
Proof.
  unfold on_label, bind. rewrite label_at_run.
  destruct (qlabels st !! i); reflexivity.
Qed.

Lemma preserves_getitem (P : state -> Prop) k : preserves P (getitem k).
Proof. intros st H. rewrite getitem_run. exact H. Qed.

Lemma preserves_lineedit_at (P : state -> Prop) i : preserves P (lineedit_at i).
Proof. intros st H. rewrite lineedit_at_run. exact H. Qed.

Lemma preserves_label_at (P : state -> Prop) i : preserves P (label_at i).
Proof. intros st H. rewrite label_at_run. exact H. Qed.

Lemma preserves_on_lineedit (P : state -> Prop) i f :
  (forall st w, P st -> qlineedit st !! i = Some w ->
                P (set_qlineedit (fun l => <[i := f w]> l) st)) ->
  preserves P (on_lineedit i f).
Proof.
  intros Hf st H. rewrite on_lineedit_run.
  destruct (qlineedit st !! i) eqn:E; [apply Hf; assumption | exact H].
Qed.

Lemma preserves_on_label (P : state -> Prop) i f :
  (forall st w, P st -> qlabels st !! i = Some w ->
                P (set_qlabels (fun l => <[i := f w]> l) st)) ->
  preserves P (on_label i f).
Proof.
  intros Hf st H. rewrite on_label_run.
  destruct (qlabels st !! i) eqn:E; [apply Hf; assumption | exact H].
Qed.

(** Everything of the state except the line edits. *)
Definition but_lineedits (st : state) :=
  (fil st, qlabels st, new_labels st, n_cur_labels st, spec_edited st,
   sigSpecsChanged st).

(** Only texts change: names, focus, visibility and number of the line
    edits are as in [l]. *)
Definition same_widgets (l : list QLineEdit) (st : state) : Prop :=
  setText "" <$> qlineedit st = setText "" <$> l.

Lemma same_widgets_setText l st i s w :
  same_widgets l st -> qlineedit st !! i = Some w ->
  same_widgets l (set_qlineedit (fun l => <[i := setText s w]> l) st).
Proof.
  unfold same_widgets. intros H Hi. simpl.
  rewrite list_fmap_insert. rewrite <- H.
  apply list_insert_id. rewrite list_lookup_fmap, Hi. reflexivity.
Qed.

Lemma same_widgets_names l st :
  same_widgets l st -> objectName <$> qlineedit st = objectName <$> l.
Proof.
  unfold same_widgets. intros H.
  apply (f_equal (fmap objectName)) in H.
  rewrite <- !list_fmap_compose in H. exact H.
Qed.

Lemma same_widgets_length l st :
  same_widgets l st -> length (qlineedit st) = length l.
Proof.
  unfold same_widgets. intros H.
  apply (f_equal length) in H. rewrite !length_fmap in H. exact H.
Qed.

Section Facts.

Variable simple_eval : string -> outcome pyval.
Variable py_str : pyval -> string.
Variable FMT_format : pyval -> option string.
Variable rt_label : string -> string.

Lemma preserves_displayed_value (P : state -> Prop) l :
  preserves P (displayed_value l).
Proof.
  unfold displayed_value. step_preserves; apply preserves_getitem.
Qed.


(** [load_entries] writes nothing but the texts of the line edits. *)
Lemma load_entries_frame (P : state -> Prop) :
  (forall st i s w, P st -> qlineedit st !! i = Some w ->
                    P (set_qlineedit (fun l => <[i := setText s w]> l) st)) ->
  preserves P (load_entries py_str FMT_format).
Proof.
  intros HP. unfold load_entries. step_preserves;
    first [ apply preserves_lineedit_at
          | apply preserves_displayed_value
          | apply preserves_on_lineedit; intros; apply HP; assumption ].
Qed.

Lemma load_entries_but_lineedits st :
  but_lineedits (state_of (load_entries py_str FMT_format st)) = but_lineedits st.
Proof.
  apply (load_entries_frame (fun s => but_lineedits s = but_lineedits st));
    [ intros; assumption | reflexivity ].
Qed.

Lemma load_entries_same_widgets st :
  same_widgets (qlineedit st) (state_of (load_entries py_str FMT_format st)).
Proof.
  apply (load_entries_frame (same_widgets (qlineedit st)));
    [ intros; apply same_widgets_setText; assumption | reflexivity ].
Qed.

Lemma load_entries_fil st :
  fil (state_of (load_entries py_str FMT_format st)) = fil st.
Proof.
  pose proof (load_entries_but_lineedits st) as H.
  unfold but_lineedits in H. congruence.
Qed.

(** *** Running [_store_entry] *)

Lemma store_entry_not_edited st w :
  spec_edited st = false ->
  _store_entry simple_eval py_str FMT_format w st = (st, Ok tt).
Proof.
  intros H. unfold _store_entry, bind, gets. rewrite H. reflexivity.
Qed.

Lemma store_entry_eval_raises st w e :
  spec_edited st = true -> simple_eval (text w) = Raise e ->
  _store_entry simple_eval py_str FMT_format w st = (st, Raise e).
Proof.
  intros H He. unfold _store_entry, bind, gets, lift. rewrite H, He.
  reflexivity.
Qed.

Lemma store_entry_division_raises st w v f_S e :
  spec_edited st = true -> simple_eval (text w) = Ok v ->
  fil st !! "f_S" = Some f_S -> py_truediv v f_S = Raise e ->
  _store_entry simple_eval py_str FMT_format w st = (st, Raise e).
Proof.
  intros H Hv HfS Hd. unfold _store_entry, bind, gets, lift.
  rewrite H, Hv, getitem_run, HfS, Hd. reflexivity.
Qed.

(** The state right after the dictionary update of [_store_entry]. *)
Definition stored (w : QLineEdit) (q : pyval) (st : state) : state :=
  set_fil (fun d => <[objectName w := q]> d) st.

Lemma store_entry_run st w v f_S q :
  spec_edited st = true -> simple_eval (text w) = Ok v ->
  fil st !! "f_S" = Some f_S -> py_truediv v f_S = Ok q ->
  _store_entry simple_eval py_str FMT_format w st =
  match sort_dict_freqs py_str FMT_format (stored w q st) with
  | (st2, Ok _) => (set_spec_edited false (emit_sigSpecsChanged st2), Ok tt)
  | (st2, Raise e) => (st2, Raise e)
  end.
Proof.
  intros H Hv HfS Hd. unfold _store_entry, bind, gets, lift, setitem, modify.
  rewrite H, Hv, getitem_run, HfS, Hd. unfold stored.
  destruct (sort_dict_freqs py_str FMT_format _) as [st2 [[]|e]]; reflexivity.
Qed.

Lemma sort_dict_freqs_off st flag :
  fil st !! "freq_specs_sort" = Some flag -> truthy flag = false ->
  sort_dict_freqs py_str FMT_format st = load_entries py_str FMT_format st.
Proof.
  intros Hf Ht. unfold sort_dict_freqs, bind at 1. rewrite getitem_run, Hf, Ht.
  unfold bind, ret. reflexivity.
Qed.

(** *** Which exceptions the methods can raise *)

Definition not_division_error (e : exn) : Prop := e <> ZeroDivisionError.

Lemma raises_only_getitem (E : exn -> Prop) k :
  E (KeyError k) -> raises_only E (getitem k).
Proof.
  intros HE st e. rewrite getitem_run. unfold result_of; simpl.
  destruct (fil st !! k); intros H; [discriminate H | injection H as <-; exact HE].
Qed.

Lemma raises_only_lineedit_at (E : exn -> Prop) i :
  E IndexError -> raises_only E (lineedit_at i).
Proof.
  intros HE st e. rewrite lineedit_at_run. unfold result_of; simpl.
  destruct (qlineedit st !! i); intros H;
    [discriminate H | injection H as <-; exact HE].
Qed.

Lemma raises_only_on_lineedit (E : exn -> Prop) i f :
  E IndexError -> raises_only E (on_lineedit i f).
Proof.
  intros HE st e. rewrite on_lineedit_run. unfold result_of.
  destruct (qlineedit st !! i); simpl; intros H;
    [discriminate H | injection H as <-; exact HE].
Qed.

Lemma py_mul_raises a b e : py_mul a b = Raise e -> e = TypeError.
Proof.
  unfold py_mul. destruct a, b; simpl; intros H;
    first [discriminate H | injection H as <-; reflexivity].
Qed.

Lemma py_lt_raises a b e : py_lt a b = Raise e -> e = TypeError.
Proof.
  unfold py_lt. destruct a, b; simpl; intros H;
    first [discriminate H | injection H as <-; reflexivity].
Qed.

Lemma insort_raises x l e : insort x l = Raise e -> e = TypeError.
Proof.
  induction l as [|y l IH]; simpl; [discriminate|].
  destruct (py_lt y x) as [[|]|e'] eqn:E.
  - destruct (insort x l); [discriminate|].
    intros H. injection H as <-. apply IH. reflexivity.
  - discriminate.
  - intros H. injection H as <-. eapply py_lt_raises, E.
Qed.

Lemma list_sort_raises l e : list_sort l = Raise e -> e = TypeError.
Proof.
  induction l as [|x l IH]; simpl; [discriminate|].
  destruct (list_sort l) as [s|e'].
  - apply insort_raises.
  - intros H. injection H as <-. apply IH. reflexivity.
Qed.

Lemma load_entries_raises :
  raises_only not_division_error (load_entries py_str FMT_format).
Proof.
  unfold load_entries, displayed_value. step_raises;
    first [ apply raises_only_lineedit_at; discriminate
          | apply raises_only_on_lineedit; discriminate
          | apply raises_only_getitem; discriminate
          | apply raises_only_from_option; discriminate
          | apply raises_only_lift; intros e H;
            apply py_mul_raises in H; subst e; discriminate ].
Qed.

Lemma sort_dict_freqs_raises :
  raises_only not_division_error (sort_dict_freqs py_str FMT_format).
Proof.
  unfold sort_dict_freqs, setitem. step_raises;
    first [ apply load_entries_raises
          | apply raises_only_lineedit_at; discriminate
          | apply raises_only_getitem; discriminate
          | apply raises_only_from_option; discriminate
          | apply raises_only_lift; intros e H;
            apply list_sort_raises in H; subst e; discriminate ].
Qed.

(** *** The dictionary under the event handler *)

Lemma eventFilter_unfold source event :
  eventFilter simple_eval py_str FMT_format source event =
  bind (match source with
        | LineEdit w =>
            match event with
            | FocusIn =>
                bind (modify (set_spec_edited false))
                     (fun _ => load_entries py_str FMT_format)
            | KeyPress key =>
                bind (modify (set_spec_edited true))
                  (fun _ =>
                     match key with
                     | Key_Return | Key_Enter =>
                         _store_entry simple_eval py_str FMT_format w
                     | Key_Escape =>
                         bind (modify (set_spec_edited false))
                              (fun _ => load_entries py_str FMT_format)
                     | Key_other _ => ret tt
                     end)
            | FocusOut => _store_entry simple_eval py_str FMT_format w
            | OtherEvent => ret tt
            end
        | OtherObject => ret tt
        end) (fun _ => ret false).
Proof. reflexivity. Qed.

Lemma eventFilter_FocusOut st w :
  eventFilter simple_eval py_str FMT_format (LineEdit w) FocusOut st =
  match _store_entry simple_eval py_str FMT_format w st with
  | (st', Ok _) => (st', Ok false)
  | (st', Raise e) => (st', Raise e)
  end.
Proof. reflexivity. Qed.

Lemma eventFilter_store_key st w key :
  key = Key_Return \/ key = Key_Enter ->
  eventFilter simple_eval py_str FMT_format (LineEdit w) (KeyPress key) st =
  match _store_entry simple_eval py_str FMT_format w (set_spec_edited true st) with
  | (st', Ok _) => (st', Ok false)
  | (st', Raise e) => (st', Raise e)
  end.
Proof. intros [-> | ->]; reflexivity. Qed.

(** Events that do not reach [_store_entry] leave the dictionary alone. *)
Lemma eventFilter_no_store st source event :
  (forall w, source = LineEdit w ->
             event <> FocusOut /\ event <> KeyPress Key_Return
             /\ event <> KeyPress Key_Enter) ->
  fil (state_of (eventFilter simple_eval py_str FMT_format source event st))
  = fil st.
Proof.
  intros H. rewrite eventFilter_unfold.
  apply (preserves_bind (fun s => fil s = fil st)); [ | intros; apply preserves_ret | reflexivity ].
  destruct source as [w|]; [ | apply preserves_ret ].
  destruct (H w eq_refl) as (H1 & H2 & H3).
  destruct event as [ | | [ | | | c] | ]; try congruence; step_preserves;
    first [ apply preserves_modify; intros; assumption
          | apply load_entries_frame; intros; assumption ].
Qed.

(** C5: [load_entries] only refreshes the display.  Every key of
    [fb.fil[0]] holds after the call what it held before (whether the call
    returns or raises); of the whole state only the texts of the line edits
    can differ, so a changed [f_S] or unit never reaches a stored value. *)
Theorem load_entries_only_refreshes_display st :
  let st' := state_of (load_entries py_str FMT_format st) in
  (forall K, fil st' !! K = fil st !! K)
  /\ but_lineedits st' = but_lineedits st
  /\ same_widgets (qlineedit st) st'.
Proof.
  intros st'. split; [ | split ].
  - intros K. unfold st'. rewrite load_entries_fil. reflexivity.
  - apply load_entries_but_lineedits.
  - apply load_entries_same_widgets.
Qed.

(** C3: when the evaluator rejects the text of the edited field,
    [_store_entry] (with [spec_edited] true) raises the evaluator's
    exception and leaves the whole state, [fb.fil[0]] included, as it was;
    [eventFilter] has no handler, so the same exception leaves it, on
    [FocusOut] and on the Return and Enter keys alike. *)
Theorem malformed_input_propagates st w e :
  spec_edited st = true ->
  simple_eval (text w) = Raise e ->
  _store_entry simple_eval py_str FMT_format w st = (st, Raise e)
  /\ eventFilter simple_eval py_str FMT_format (LineEdit w) FocusOut st
     = (st, Raise e)
  /\ forall key, key = Key_Return \/ key = Key_Enter ->
       let r := eventFilter simple_eval py_str FMT_format
                  (LineEdit w) (KeyPress key) st in
       result_of r = Raise e /\ fil (state_of r) = fil st.
Proof.
  intros Hflag He.
  pose proof (store_entry_eval_raises st w e Hflag He) as Hs.
  split; [exact Hs | split].
  - rewrite eventFilter_FocusOut, Hs. reflexivity.
  - intros key Hkey r. unfold r.
    rewrite (eventFilter_store_key st w key Hkey).
    rewrite (store_entry_eval_raises (set_spec_edited true st) w e eq_refl He).
    split; reflexivity.
Qed.

(** C4: the event path writes [fb.fil[0]] only through [_store_entry], and
    [_store_entry] writes only when [spec_edited] is true.  With the flag
    false [_store_entry] is a no-op and a [FocusOut] leaves the whole state
    unchanged; an event after which the dictionary differs is a [FocusOut]
    with the flag true, or a Return or Enter key press (which sets the flag
    itself before it stores). *)
Theorem dict_writes_gated_by_spec_edited st source event :
  (spec_edited st = false ->
   forall w,
     _store_entry simple_eval py_str FMT_format w st = (st, Ok tt)
     /\ eventFilter simple_eval py_str FMT_format (LineEdit w) FocusOut st
        = (st, Ok false))
  /\ (fil (state_of (eventFilter simple_eval py_str FMT_format source event st))
      <> fil st ->
      exists w, source = LineEdit w
        /\ ((event = FocusOut /\ spec_edited st = true)
            \/ event = KeyPress Key_Return \/ event = KeyPress Key_Enter)).
Proof.
  split.
  - intros Hflag w.
    pose proof (store_entry_not_edited st w Hflag) as Hs.
    split; [exact Hs | ]. rewrite eventFilter_FocusOut, Hs. reflexivity.
  - intros Hne.
    destruct source as [w|].
    2:{ exfalso. apply Hne. apply eventFilter_no_store. intros w Hw. discriminate Hw. }
    exists w. split; [reflexivity|].
    destruct event as [ | | [ | | | c] | ].
    + exfalso. apply Hne. apply eventFilter_no_store.
      intros w' _. repeat split; discriminate.
    + destruct (spec_edited st) eqn:Hflag; [left; split; reflexivity | ].
      exfalso. apply Hne. rewrite eventFilter_FocusOut.
      rewrite (store_entry_not_edited st w Hflag). reflexivity.
    + right; left; reflexivity.
    + right; right; reflexivity.
    + exfalso. apply Hne. apply eventFilter_no_store.
      intros w' _. repeat split; discriminate.
    + exfalso. apply Hne. apply eventFilter_no_store.
      intros w' _. repeat split; discriminate.
    + exfalso. apply Hne. apply eventFilter_no_store.
      intros w' _. repeat split; discriminate.
Qed.


(** *** What [load_entries] shows *)

(** The text [load_entries] gives the line edit [w] under the dictionary
    [d]: the stored value times [f_S], rounded by [FMT] unless the line edit
    has the focus. *)
Definition shown_text (d : gmap string pyval) (w : QLineEdit) : outcome string :=
  match d !! objectName w with
  | None => Raise (KeyError (objectName w))
  | Some a =>
      match d !! "f_S" with
      | None => Raise (KeyError "f_S")
      | Some b =>
          match py_mul a b with
          | Raise e => Raise e
          | Ok v =>
              if negb (hasFocus w) then
                match FMT_format v with
                | Some s => Ok s
                | None => Raise ValueError
                end
              else Ok (py_str v)
          end
      end
  end.

(** The body of the loop of [load_entries]. *)
Definition load_body (i : nat) : M state unit :=
  w <- lineedit_at i ;;
  let f_label := objectName w in
  f_value <- displayed_value f_label ;;
  w' <- lineedit_at i ;;
  if negb (hasFocus w') then
    s <- from_option ValueError (FMT_format f_value) ;;
    on_lineedit i (setText s)
  else
    on_lineedit i (setText (py_str f_value)).

Lemma load_entries_unfold st :
  load_entries py_str FMT_format st =
  for_each (seq 0 (length (qlineedit st))) load_body st.
Proof.
  unfold load_entries, bind at 1, gets, for_range.
  rewrite Nat.sub_0_r. reflexivity.
Qed.

Lemma displayed_value_run l st :
  displayed_value l st =
  (st, match fil st !! l with
       | None => Raise (KeyError l)
       | Some a =>
           match fil st !! "f_S" with
           | None => Raise (KeyError "f_S")
           | Some b => py_mul a b
           end
       end).
Proof.
  unfold displayed_value, bind, lift. rewrite getitem_run.
  destruct (fil st !! l); [ | reflexivity ].
  rewrite getitem_run. destruct (fil st !! "f_S"); reflexivity.
Qed.

Lemma load_body_run i st w0 :
  qlineedit st !! i = Some w0 ->
  load_body i st =
  match shown_text (fil st) w0 with
  | Ok t => (set_qlineedit (fun l => <[i := setText t w0]> l) st, Ok tt)
  | Raise e => (st, Raise e)
  end.
Proof.
  intros Hi. unfold load_body, shown_text, bind.
  rewrite lineedit_at_run, Hi, displayed_value_run.
  destruct (fil st !! objectName w0) as [a|]; [ | reflexivity ].
  destruct (fil st !! "f_S") as [b|]; [ | reflexivity ].
  destruct (py_mul a b) as [v|e]; [ | reflexivity ].
  rewrite lineedit_at_run, Hi.
  destruct (negb (hasFocus w0)).
  - unfold bind, from_option. destruct (FMT_format v) as [t|]; [ | reflexivity ].
    unfold ret. rewrite on_lineedit_run, Hi. reflexivity.
  - rewrite on_lineedit_run, Hi. reflexivity.
Qed.

Lemma load_body_index i st st' :
  load_body i st = (st', Ok tt) -> is_Some (qlineedit st !! i).
Proof.
  unfold load_body, bind at 1. rewrite lineedit_at_run.
  destruct (qlineedit st !! i); [eauto | discriminate].
Qed.

(** A loop of [load_entries] that runs to its end has written, into each
    line edit it visited, the text of [shown_text]. *)
Lemma load_loop idx : forall st st',
  NoDup idx ->
  for_each idx load_body st = (st', Ok tt) ->
  fil st' = fil st
  /\ forall i,
       (i ∈ idx -> exists w0 t,
           qlineedit st !! i = Some w0
           /\ shown_text (fil st) w0 = Ok t
           /\ qlineedit st' !! i = Some (setText t w0))
       /\ (i ∉ idx -> qlineedit st' !! i = qlineedit st !! i).
Proof.
  induction idx as [|j rest IH]; intros st st' Hnd Hrun.
  - simpl in Hrun. injection Hrun as <-. split; [reflexivity|].
    intros i. split; [intros H; inversion H | reflexivity].
  - simpl in Hrun. apply bind_ok_inv in Hrun as (s1 & [] & Hj & Hrest).
    apply NoDup_cons in Hnd as [Hjrest Hnd].
    destruct (load_body_index _ _ _ Hj) as [w0 Hw0].
    rewrite (load_body_run j st w0 Hw0) in Hj.
    destruct (shown_text (fil st) w0) as [t|e] eqn:Ht; [ | discriminate Hj ].
    injection Hj as <-.
    destruct (IH _ _ Hnd Hrest) as [Hfil Hall]. simpl in Hfil.
    split; [exact Hfil|]. intros i. split.
    + intros Hin. apply elem_of_cons in Hin as [-> | Hin].
      * exists w0, t. split; [exact Hw0 | split; [exact Ht | ] ].
        destruct (Hall j) as [_ Hout]. rewrite (Hout Hjrest). simpl.
        apply list_lookup_insert_eq. eapply lookup_lt_Some, Hw0.
      * destruct (Hall i) as [Hin' _].
        destruct (Hin' Hin) as (w1 & t1 & Hw1 & Ht1 & Hres). simpl in *.
        assert (i <> j) by (intros ->; contradiction).
        rewrite list_lookup_insert_ne in Hw1 by congruence.
        exists w1, t1. split; [exact Hw1 | split; [exact Ht1 | exact Hres] ].
    + intros Hout. apply not_elem_of_cons in Hout as [Hne Hout].
      destruct (Hall i) as [_ Hout']. rewrite (Hout' Hout). simpl.
      apply list_lookup_insert_ne. congruence.
Qed.

Lemma load_entries_shows st st' :
  load_entries py_str FMT_format st = (st', Ok tt) ->
  forall i w', qlineedit st' !! i = Some w' ->
    exists w0 t, qlineedit st !! i = Some w0
                 /\ shown_text (fil st) w0 = Ok t
                 /\ w' = setText t w0.
Proof.
  intros Hrun i w' Hi. rewrite load_entries_unfold in Hrun.
  pose proof (load_entries_same_widgets st) as Hsame.
  rewrite load_entries_unfold, Hrun in Hsame. simpl in Hsame.
  destruct (load_loop _ _ _ (NoDup_seq 0 _) Hrun) as [_ Hall].
  destruct (Hall i) as [Hin _].
  destruct Hin as (w0 & t & Hw0 & Ht & Hres).
  { apply elem_of_seq. split; [lia|]. simpl.
    rewrite <- (same_widgets_length _ _ Hsame). eapply lookup_lt_Some, Hi. }
  exists w0, t. split; [exact Hw0 | split; [exact Ht | congruence] ].
Qed.


End Facts.

(** *** Sorting the dictionary *)

(** The assignments [fb.fil[0][name] = value] of the second loop of
    [sort_dict_freqs], in the order they are made. *)
Definition write_back (kvs : list (string * pyval)) (d : gmap string pyval)
    : gmap string pyval :=
  foldl (fun d kv => <[kv.1 := kv.2]> d) d kvs.

Lemma write_back_notin kvs : forall d k,
  k ∉ kvs.*1 -> write_back kvs d !! k = d !! k.
Proof.
  induction kvs as [|[k' v'] kvs IH]; intros d k Hk; [reflexivity|].
  simpl in *. apply not_elem_of_cons in Hk as [Hne Hk].
  unfold write_back in *. simpl. rewrite (IH _ _ Hk).
  apply lookup_insert_ne. congruence.
Qed.

Lemma write_back_in kvs : forall d i k v,
  NoDup kvs.*1 -> kvs !! i = Some (k, v) -> write_back kvs d !! k = Some v.
Proof.
  induction kvs as [|[k' v'] kvs IH]; intros d i k v Hnd Hi; [discriminate Hi|].
  simpl in Hnd. apply NoDup_cons in Hnd as [Hk' Hnd].
  destruct i as [|i]; simpl in Hi.
  - injection Hi as -> ->. unfold write_back. simpl.
    fold (write_back kvs (<[k:=v]> d)).
    rewrite (write_back_notin _ _ _ Hk'). apply lookup_insert_eq.
  - unfold write_back. simpl. apply (IH _ i); assumption.
Qed.

(** The bodies of the comprehension and of the loop of [sort_dict_freqs]. *)
Definition read_body (i : nat) : M state pyval :=
  w <- lineedit_at i ;; getitem (objectName w).

Definition write_body (fSpecs : list pyval) (i : nat) : M state unit :=
  v <- from_option IndexError (fSpecs !! i) ;;
  w <- lineedit_at i ;;
  setitem (objectName w) v.

Lemma collect_read ws : forall vs k st,
  (forall j w, ws !! j = Some w -> qlineedit st !! (k + j) = Some w) ->
  Forall2 (fun w v => fil st !! objectName w = Some v) ws vs ->
  collect (seq k (length ws)) read_body st = (st, Ok vs).
Proof.
  induction ws as [|w ws IH]; intros vs k st Hws Hvs.
  - apply Forall2_nil_inv_l in Hvs as ->. reflexivity.
  - apply Forall2_cons_inv_l in Hvs as (v & vs' & Hv & Hvs & ->).
    simpl. unfold bind at 1. unfold read_body at 1, bind at 1.
    rewrite lineedit_at_run. rewrite <- (Nat.add_0_r k) at 1.
    rewrite (Hws 0 w eq_refl). rewrite (getitem_some _ _ _ Hv).
    unfold bind at 1. rewrite (IH vs' (S k) st); [reflexivity | | exact Hvs].
    intros j w' Hj. replace (S k + j) with (k + S j) by lia.
    apply (Hws (S j)), Hj.
Qed.

Lemma write_loop fSpecs ws : forall vs k st,
  length vs = length ws ->
  (forall j w, ws !! j = Some w -> qlineedit st !! (k + j) = Some w) ->
  (forall j v, vs !! j = Some v -> fSpecs !! (k + j) = Some v) ->
  for_each (seq k (length ws)) (write_body fSpecs) st =
  (set_fil (write_back (zip (objectName <$> ws) vs)) st, Ok tt).
Proof.
  induction ws as [|w ws IH]; intros vs k st Hlen Hws Hvs.
  - destruct vs; [ | discriminate Hlen ]. destruct st; reflexivity.
  - destruct vs as [|v vs]; [discriminate Hlen|].
    simpl. unfold bind at 1. unfold write_body at 1, bind at 1.
    pose proof (Hvs 0 v eq_refl) as Hv. pose proof (Hws 0 w eq_refl) as Hw.
    rewrite Nat.add_0_r in Hv, Hw. rewrite Hv. simpl. unfold bind at 1.
    rewrite lineedit_at_run, Hw. unfold setitem, modify.
    rewrite (IH vs (S k)).
    + reflexivity.
    + simpl in Hlen. lia.
    + intros j w' Hj. simpl. replace (S (k + j)) with (k + S j) by lia.
      apply (Hws (S j)), Hj.
    + intros j v' Hj. replace (S k + j) with (k + S j) by lia.
      apply (Hvs (S j)), Hj.
Qed.

Section Sorting.

Variable py_str : pyval -> string.
Variable FMT_format : pyval -> option string.

Lemma sort_dict_freqs_unfold st :
  sort_dict_freqs py_str FMT_format st =
  match fil st !! "freq_specs_sort" with
  | None => (st, Raise (KeyError "freq_specs_sort"))
  | Some flag =>
      if truthy flag then
        match collect (seq 0 (length (qlineedit st))) read_body st with
        | (s1, Ok fSpecs) =>
            match list_sort fSpecs with
            | Ok sorted =>
                match for_each (seq 0 (length (qlineedit s1)))
                        (write_body sorted) s1 with
                | (s2, Ok _) => load_entries py_str FMT_format s2
                | (s2, Raise e) => (s2, Raise e)
                end
            | Raise e => (s1, Raise e)
            end
        | (s1, Raise e) => (s1, Raise e)
        end
      else load_entries py_str FMT_format st
  end.
Proof.
  unfold sort_dict_freqs. unfold bind at 1. rewrite getitem_run.
  destruct (fil st !! "freq_specs_sort") as [flag|]; [ | reflexivity ].
  destruct (truthy flag); [ | reflexivity ].
  unfold bind at 1. unfold bind at 1. unfold gets at 1. unfold bind at 1.
  fold read_body.
  destruct (collect _ read_body st) as [s1 [fSpecs|e]]; [ | reflexivity ].
  unfold bind at 1, lift at 1.
  destruct (list_sort fSpecs) as [sorted|e]; [ | reflexivity ].
  unfold bind at 1, gets at 1, for_range. rewrite Nat.sub_0_r.
  fold (write_body sorted).
  destruct (for_each _ (write_body sorted) s1) as [s2 [[]|e]]; reflexivity.
Qed.

(** With the flag set, names that are keys and values that sort:
    [sort_dict_freqs] assigns the sorted values to the names in widget
    order and reloads the texts. *)
Lemma sort_dict_freqs_on st flag vals sorted :
  fil st !! "freq_specs_sort" = Some flag -> truthy flag = true ->
  Forall2 (fun w v => fil st !! objectName w = Some v) (qlineedit st) vals ->
  list_sort vals = Ok sorted ->
  sort_dict_freqs py_str FMT_format st =
  load_entries py_str FMT_format
    (set_fil (write_back (zip (objectName <$> qlineedit st) sorted)) st).
Proof.
  intros Hflag Ht Hvals Hsort. rewrite sort_dict_freqs_unfold, Hflag, Ht.
  rewrite (collect_read (qlineedit st) vals 0 st); [ | intros j w H; exact H | exact Hvals ].
  rewrite Hsort.
  rewrite (write_loop sorted (qlineedit st) sorted 0 st).
  - reflexivity.
  - rewrite <- (Permutation_length (SortFacts.list_sort_perm _ _ Hsort)).
    symmetry. eapply Forall2_length, Hvals.
  - intros j w H; exact H.
  - intros j v H; exact H.
Qed.


End Sorting.

(** *** The widget lists *)

(** The lengths of the two widget lists. *)
Definition lengths (st : state) : nat * nat :=
  (length (qlabels st), length (qlineedit st)).

(** The object names of the line edits, in widget order. *)
Definition names (st : state) : list string := objectName <$> qlineedit st.

(** The label list and the line-edit list have one entry per field, and the
    visible fields are among them. *)
Definition wf (st : state) : Prop :=
  length (qlabels st) = length (qlineedit st)
  /\ n_cur_labels st <= length (qlineedit st).

Section Bookkeeping.

Variable simple_eval : string -> outcome pyval.
Variable py_str : pyval -> string.
Variable FMT_format : pyval -> option string.
Variable rt_label : string -> string.

(** What a method that neither appends widgets nor renames them keeps. *)
Definition layout (st : state) : nat * list string * nat :=
  (length (qlabels st), names st, n_cur_labels st).

Lemma layout_set_qlineedit st i f w :
  qlineedit st !! i = Some w -> objectName (f w) = objectName w ->
  layout (set_qlineedit (fun l => <[i := f w]> l) st) = layout st.
Proof.
  intros Hi Hf. unfold layout, names. simpl. f_equal. f_equal.
  rewrite list_fmap_insert, Hf. apply list_insert_id.
  rewrite list_lookup_fmap, Hi. reflexivity.
Qed.

Lemma layout_set_qlabels st i w :
  layout (set_qlabels (fun l => <[i := w]> l) st) = layout st.
Proof. unfold layout, names. simpl. rewrite length_insert. reflexivity. Qed.

Lemma preserves_layout_on_lineedit c i f :
  (forall w, objectName (f w) = objectName w) ->
  preserves (fun s => layout s = c) (on_lineedit i f).
Proof.
  intros Hf. apply preserves_on_lineedit. intros st w H Hi.
  rewrite layout_set_qlineedit; [exact H | exact Hi | apply Hf].
Qed.

Lemma preserves_layout_on_label c i f :
  preserves (fun s => layout s = c) (on_label i f).
Proof.
  apply preserves_on_label. intros st w H Hi.
  rewrite layout_set_qlabels. exact H.
Qed.

Lemma load_entries_layout c :
  preserves (fun s => layout s = c) (load_entries py_str FMT_format).
Proof.
  apply load_entries_frame. intros st i t w H Hi.
  rewrite layout_set_qlineedit; [exact H | exact Hi | reflexivity].
Qed.

Lemma sort_dict_freqs_layout c :
  preserves (fun s => layout s = c) (sort_dict_freqs py_str FMT_format).
Proof.
  unfold sort_dict_freqs, setitem. step_preserves;
    first [ apply preserves_getitem
          | apply preserves_lineedit_at
          | apply load_entries_layout
          | apply preserves_modify; intros; assumption ].
Qed.

Lemma store_entry_layout c w :
  preserves (fun s => layout s = c)
            (_store_entry simple_eval py_str FMT_format w).
Proof.
  unfold _store_entry, setitem. step_preserves;
    first [ apply preserves_getitem
          | apply sort_dict_freqs_layout
          | apply preserves_modify; intros; assumption ].
Qed.

Lemma eventFilter_layout c source event :
  preserves (fun s => layout s = c)
            (eventFilter simple_eval py_str FMT_format source event).
Proof.
  rewrite eventFilter_unfold.
  apply preserves_bind; [ | intros; apply preserves_ret ].
  destruct source as [w|]; [ | apply preserves_ret ].
  destruct event as [ | | [ | | | k] | ]; step_preserves;
    first [ apply store_entry_layout
          | apply load_entries_layout
          | apply preserves_modify; intros; assumption ].
Qed.

Lemma hide_entries_layout c n :
  preserves (fun s => layout s = c) (_hide_entries n).
Proof.
  unfold _hide_entries. step_preserves;
    first [ apply preserves_layout_on_label
          | apply preserves_layout_on_lineedit; reflexivity ].
Qed.

Lemma layout_lengths st st' :
  layout st' = layout st ->
  lengths st' = lengths st /\ n_cur_labels st' = n_cur_labels st
  /\ names st' = names st.
Proof.
  unfold layout, lengths, names. intros H. injection H as H1 H2 H3.
  split; [ | split; assumption ].
  apply (f_equal length) in H2. rewrite !length_fmap in H2. congruence.
Qed.

(** The body of the loop of [_show_entries] that creates widgets. *)
Definition create_body (i : nat) : M state unit :=
  modify (set_qlabels (fun l => l ++ [new_QLabel])) ;;
  on_label i (setLabelText (rt_label "dummy")) ;;
  modify (set_qlineedit (fun l => l ++ [new_QLineEdit])) ;;
  on_lineedit i (setObjectName "dummy") ;;
  on_lineedit i installEventFilter.

Lemma create_body_run i st :
  lengths st = (i, i) ->
  exists st', create_body i st = (st', Ok tt)
    /\ lengths st' = (S i, S i)
    /\ n_cur_labels st' = n_cur_labels st.
Proof.
  unfold lengths. intros H. injection H as Hl He.
  unfold create_body, bind, modify.
  rewrite on_label_run. simpl.
  rewrite lookup_app_r by lia. rewrite Hl, Nat.sub_diag. simpl.
  rewrite on_lineedit_run. simpl.
  rewrite lookup_app_r by lia. rewrite He, Nat.sub_diag. simpl.
  rewrite on_lineedit_run. simpl.
  rewrite list_lookup_insert_eq by (rewrite length_app; simpl; lia).
  eexists. split; [reflexivity|]. unfold lengths. simpl.
  rewrite !length_insert, !length_app. simpl.
  split; [ f_equal; lia | reflexivity ].
Qed.

Lemma create_loop m : forall k st,
  lengths st = (k, k) ->
  exists st', for_each (seq k m) create_body st = (st', Ok tt)
    /\ lengths st' = (k + m, k + m)
    /\ n_cur_labels st' = n_cur_labels st.
Proof.
  induction m as [|m IH]; intros k st H.
  - exists st. rewrite Nat.add_0_r. split; [reflexivity | split; [exact H | reflexivity] ].
  - destruct (create_body_run k st H) as (s1 & Hrun & Hlen & Hn).
    destruct (IH (S k) s1 Hlen) as (st' & Hrun' & Hlen' & Hn').
    exists st'. simpl. rewrite (bind_ok _ _ _ _ _ Hrun).
    split; [exact Hrun' | split].
    + rewrite Hlen'. f_equal; lia.
    + congruence.
Qed.

(** The loop of [_show_entries] that makes hidden widgets visible. *)
Definition show_body (i : nat) : M state unit :=
  on_label i (setLabelVisible true) ;;
  on_lineedit i (setEditVisible true).

Lemma show_entries_unfold n st :
  _show_entries rt_label n st =
  if length (qlabels st) <? n then
    for_each (seq (length (qlabels st)) (n - length (qlabels st))) create_body st
  else
    for_each (seq (n_cur_labels st) (n - n_cur_labels st)) show_body st.
Proof.
  unfold _show_entries, bind at 1, gets at 1.
  destruct (length (qlabels st) <? n); reflexivity.
Qed.

(** The sizes the bookkeeping is about. *)
Definition sizes (st : state) : nat * nat * nat :=
  (length (qlabels st), length (qlineedit st), n_cur_labels st).

Lemma sizes_of_layout st st' : layout st' = layout st -> sizes st' = sizes st.
Proof.
  intros H. destruct (layout_lengths _ _ H) as (H1 & H2 & _).
  unfold sizes, lengths in *. congruence.
Qed.

Lemma preserves_sizes_of_layout {A} (m : M state A) :
  (forall c, preserves (fun s => layout s = c) m) ->
  forall c, preserves (fun s => sizes s = c) m.
Proof.
  intros H c s Hs. rewrite <- Hs. apply sizes_of_layout.
  apply (H (layout s) s eq_refl).
Qed.

Lemma preserves_sizes_on_lineedit c i f :
  preserves (fun s => sizes s = c) (on_lineedit i f).
Proof.
  apply preserves_on_lineedit. intros st w H Hi. rewrite <- H.
  unfold sizes. simpl. rewrite length_insert. reflexivity.
Qed.

Lemma preserves_sizes_on_label c i f :
  preserves (fun s => sizes s = c) (on_label i f).
Proof.
  apply preserves_on_label. intros st w H Hi. rewrite <- H.
  unfold sizes. simpl. rewrite length_insert. reflexivity.
Qed.

Lemma show_body_sizes c i : preserves (fun s => sizes s = c) (show_body i).
Proof.
  unfold show_body. step_preserves;
    [apply preserves_sizes_on_label | apply preserves_sizes_on_lineedit].
Qed.

(** [_show_entries] on well-formed lists: afterwards both lists have
    [max len n] entries, and the counter is untouched. *)
Lemma show_entries_sizes n st :
  wf st ->
  sizes (state_of (_show_entries rt_label n st))
  = (Nat.max (length (qlineedit st)) n, Nat.max (length (qlineedit st)) n,
     n_cur_labels st).
Proof.
  intros [Hlen Hn]. rewrite show_entries_unfold.
  destruct (Nat.ltb_spec (length (qlabels st)) n) as [Hlt | Hge].
  - destruct (create_loop (n - length (qlabels st)) (length (qlabels st)) st)
      as (st' & Hrun & Hl & Hc).
    { unfold lengths. rewrite Hlen. reflexivity. }
    rewrite Hrun. unfold state_of, sizes, lengths in *. simpl.
    injection Hl as Hl1 Hl2. rewrite Hl1, Hl2, Hc.
    repeat f_equal; lia.
  - assert (H : sizes (state_of (for_each (seq (n_cur_labels st)
                                   (n - n_cur_labels st)) show_body st))
                = sizes st).
    { apply (preserves_for_each (fun s => sizes s = sizes st));
        [ intros i; apply show_body_sizes | reflexivity ]. }
    rewrite H. unfold sizes. repeat f_equal; lia.
Qed.

(** The first part of [update_UI]: hide or show widgets to fit the number
    of labels. *)
Definition resize (num_new_labels : nat) : M state unit :=
  fun st =>
    (if num_new_labels <? n_cur_labels st then _hide_entries num_new_labels
     else if n_cur_labels st <? num_new_labels
          then _show_entries rt_label num_new_labels
          else ret tt) st.

(** The body of the loop of [update_UI] and the rest of the method. *)
Definition name_body (labels : list string) (i : nat) : M state unit :=
  _ <- label_at i ;;
  l <- from_option IndexError (labels !! i) ;;
  on_label i (setLabelText (rt_label l)) ;;
  _ <- lineedit_at i ;;
  v <- getitem l ;;
  on_lineedit i (setText (py_str v)) ;;
  on_lineedit i (setObjectName l).

Definition finish (labels : list string) : M state unit :=
  _ <- getitem "rt" ;;
  _ <- getitem "dm" ;;
  _ <- getitem "fo" ;;
  for_range 0 (length labels) (name_body labels) ;;
  modify (set_n_cur_labels (length labels)) ;;
  sort_dict_freqs py_str FMT_format.

Lemma update_UI_unfold labels st :
  update_UI py_str FMT_format rt_label labels st =
  bind (resize (length labels)) (fun _ => finish labels)
       (set_new_labels labels st).
Proof. reflexivity. Qed.

Lemma resize_sizes num st :
  wf st ->
  exists m,
    sizes (state_of (resize num st)) = (m, m, n_cur_labels st)
    /\ length (qlineedit st) <= m /\ num <= m /\ n_cur_labels st <= m.
Proof.
  intros Hwf. pose proof Hwf as [Hlen Hn]. unfold resize.
  destruct (Nat.ltb_spec num (n_cur_labels st)) as [Hlt | Hge].
  - exists (length (qlineedit st)).
    rewrite (preserves_sizes_of_layout _ (fun c => hide_entries_layout c num)
               (sizes st) st eq_refl).
    unfold sizes. rewrite Hlen. repeat split; lia.
  - destruct (Nat.ltb_spec (n_cur_labels st) num) as [Hlt | Hge'].
    + exists (Nat.max (length (qlineedit st)) num).
      rewrite (show_entries_sizes num st Hwf). repeat split; lia.
    + exists (length (qlineedit st)). unfold sizes, state_of, ret. simpl.
      rewrite Hlen. repeat split; lia.
Qed.

Lemma name_body_sizes c labels i :
  preserves (fun s => sizes s = c) (name_body labels i).
Proof.
  unfold name_body. step_preserves;
    first [ apply preserves_label_at | apply preserves_lineedit_at
          | apply preserves_getitem | apply preserves_sizes_on_label
          | apply preserves_sizes_on_lineedit ].
Qed.

(** After [resize] the rest of [update_UI] keeps the lists as long as they
    are and sets the counter to the number of labels. *)
Lemma finish_keeps m labels :
  length labels <= m ->
  preserves (fun s => length (qlabels s) = m /\ length (qlineedit s) = m
                      /\ n_cur_labels s <= m)
            (finish labels).
Proof.
  intros Hm.
  assert (Hsz : forall {A} (mm : M state A),
            (forall c, preserves (fun s => sizes s = c) mm) ->
            preserves (fun s => length (qlabels s) = m
                                /\ length (qlineedit s) = m
                                /\ n_cur_labels s <= m) mm).
  { intros A mm H s Hs. specialize (H (sizes s) s eq_refl).
    unfold sizes in H. injection H as -> -> ->. exact Hs. }
  unfold finish. step_preserves.
  - apply preserves_getitem.
  - apply preserves_getitem.
  - apply preserves_getitem.
  - apply Hsz. intros c. apply name_body_sizes.
  - apply preserves_modify. intros s (H1 & H2 & _). simpl. auto.
  - apply Hsz. apply preserves_sizes_of_layout. intros c.
    apply sort_dict_freqs_layout.
Qed.

(** [update_UI] keeps the lists well-formed and never shortens them,
    whether it returns or raises. *)
Lemma update_UI_wf labels st :
  wf st ->
  wf (state_of (update_UI py_str FMT_format rt_label labels st))
  /\ length (qlabels st)
     <= length (qlabels (state_of (update_UI py_str FMT_format rt_label labels st)))
  /\ length (qlineedit st)
     <= length (qlineedit (state_of (update_UI py_str FMT_format rt_label labels st))).
Proof.
  intros Hwf. rewrite update_UI_unfold.
  set (s0 := set_new_labels labels st).
  assert (Hwf0 : wf s0) by exact Hwf.
  destruct (resize_sizes (length labels) s0 Hwf0) as (m & Hsz & Hm1 & Hm2 & Hm3).
  unfold sizes in Hsz. injection Hsz as Hl He Hc.
  assert (HP : length (qlabels (state_of (resize (length labels) s0))) = m
               /\ length (qlineedit (state_of (resize (length labels) s0))) = m
               /\ n_cur_labels (state_of (resize (length labels) s0)) <= m).
  { rewrite Hl, He, Hc. auto. }
  unfold bind, state_of in *.
  destruct (resize (length labels) s0) as [s1 [[]|e]]; simpl in *.
  - pose proof (finish_keeps m labels Hm2 s1 HP) as (H1 & H2 & H3).
    unfold state_of in *. destruct Hwf as [Hlen _].
    unfold wf. rewrite H1, H2. repeat split; lia.
  - destruct HP as (H1 & H2 & H3). destruct Hwf as [Hlen _].
    unfold wf. rewrite H1, H2. repeat split; lia.
Qed.

(** *** The names after [update_UI] *)

Lemma on_lineedit_ok i f s s' :
  on_lineedit i f s = (s', Ok tt) ->
  exists w, qlineedit s !! i = Some w
            /\ s' = set_qlineedit (fun l => <[i := f w]> l) s.
Proof.
  rewrite on_lineedit_run. destruct (qlineedit s !! i) as [w|]; intros H.
  - injection H as <-. exists w. split; reflexivity.
  - discriminate H.
Qed.

Lemma on_label_ok i f s s' :
  on_label i f s = (s', Ok tt) ->
  exists w, qlabels s !! i = Some w
            /\ s' = set_qlabels (fun l => <[i := f w]> l) s.
Proof.
  rewrite on_label_run. destruct (qlabels s !! i) as [w|]; intros H.
  - injection H as <-. exists w. split; reflexivity.
  - discriminate H.
Qed.

Lemma name_body_ok labels i s s' :
  name_body labels i s = (s', Ok tt) ->
  exists l, labels !! i = Some l
            /\ names s' !! i = Some l
            /\ forall j, j <> i -> names s' !! j = names s !! j.
Proof.
  unfold name_body. intros H.
  apply bind_ok_inv in H as (s1 & w1 & H1 & H).
  rewrite label_at_run in H1. injection H1 as <- _.
  apply bind_ok_inv in H as (s2 & l & H2 & H).
  destruct (labels !! i) as [l'|] eqn:Hl; [ | discriminate H2 ].
  injection H2 as <- <-.
  apply bind_ok_inv in H as (s3 & [] & H3 & H).
  apply on_label_ok in H3 as (w3 & _ & ->).
  apply bind_ok_inv in H as (s4 & w4 & H4 & H).
  rewrite lineedit_at_run in H4. injection H4 as <- _.
  apply bind_ok_inv in H as (s5 & v & H5 & H).
  rewrite getitem_run in H5. injection H5 as <- _.
  apply bind_ok_inv in H as (s6 & [] & H6 & H).
  apply on_lineedit_ok in H6 as (w6 & Hw6 & ->).
  apply on_lineedit_ok in H as (w7 & Hw7 & ->).
  exists l'. split; [reflexivity|]. unfold names. simpl in *.
  assert (Hi : i < length (qlineedit s)) by (eapply lookup_lt_Some, Hw6).
  split.
  - rewrite list_lookup_fmap, list_lookup_insert_eq; [reflexivity|].
    rewrite length_insert. exact Hi.
  - intros j Hj. rewrite !list_lookup_fmap.
    rewrite !list_lookup_insert_ne by congruence. reflexivity.
Qed.

Lemma name_loop labels idx : forall s s',
  NoDup idx ->
  for_each idx (name_body labels) s = (s', Ok tt) ->
  (forall i, i ∈ idx -> is_Some (labels !! i) /\ names s' !! i = labels !! i)
  /\ (forall j, j ∉ idx -> names s' !! j = names s !! j).
Proof.
  induction idx as [|i idx IH]; intros s s' Hnd Hrun.
  - simpl in Hrun. injection Hrun as <-.
    split; [intros i H; inversion H | reflexivity].
  - simpl in Hrun. apply bind_ok_inv in Hrun as (s1 & [] & Hi & Hrest).
    apply NoDup_cons in Hnd as [Hnotin Hnd].
    destruct (name_body_ok _ _ _ _ Hi) as (l & Hl & Hname & Hother).
    destruct (IH _ _ Hnd Hrest) as [Hin Hout]. split.
    + intros j Hj. apply elem_of_cons in Hj as [-> | Hj].
      * rewrite (Hout i Hnotin), Hname, Hl. split; [eauto | reflexivity].
      * apply Hin, Hj.
    + intros j Hj. apply not_elem_of_cons in Hj as [Hne Hj].
      rewrite (Hout j Hj). apply Hother, Hne.
Qed.

(** A call of [update_UI] that returns has set the counter to the number
    of labels and given the first line edits the labels as names. *)
Lemma update_UI_post labels st st' :
  update_UI py_str FMT_format rt_label labels st = (st', Ok tt) ->
  n_cur_labels st' = length labels
  /\ take (length labels) (names st') = labels.
Proof.
  rewrite update_UI_unfold. intros H.
  apply bind_ok_inv in H as (s1 & [] & _ & H). unfold finish in H.
  apply bind_ok_inv in H as (s2 & ? & H2 & H).
  rewrite getitem_run in H2. injection H2 as <- _.
  apply bind_ok_inv in H as (s3 & ? & H3 & H).
  rewrite getitem_run in H3. injection H3 as <- _.
  apply bind_ok_inv in H as (s4 & ? & H4 & H).
  rewrite getitem_run in H4. injection H4 as <- _.
  apply bind_ok_inv in H as (s5 & [] & Hloop & H).
  apply bind_ok_inv in H as (s6 & [] & H6 & Hsort).
  unfold modify in H6. injection H6 as <-.
  pose proof (sort_dict_freqs_layout
                (layout (set_n_cur_labels (length labels) s5))
                (set_n_cur_labels (length labels) s5) eq_refl) as Hlay.
  rewrite Hsort in Hlay. simpl in Hlay.
  destruct (layout_lengths _ _ Hlay) as (_ & Hn & Hnames).
  split; [exact Hn|]. rewrite Hnames.
  change (names (set_n_cur_labels (length labels) s5)) with (names s5).
  unfold for_range in Hloop. rewrite Nat.sub_0_r in Hloop.
  destruct (name_loop labels _ _ _ (NoDup_seq 0 _) Hloop) as [Hin _].
  apply list_eq. intros i.
  destruct (Nat.lt_ge_cases i (length labels)) as [Hlt | Hge].
  - rewrite lookup_take_lt by exact Hlt.
    apply Hin. apply elem_of_seq. lia.
  - rewrite lookup_take_ge by exact Hge.
    symmetry. apply lookup_ge_None_2, Hge.
Qed.

(** *** The life of the widget *)

(** One step: a call of a method of the widget from outside, an event that
    Qt hands to [eventFilter], or a change made elsewhere (the user types
    or moves the focus, another widget writes the dictionary), which leaves
    the lists and the counter alone. *)
Inductive step : state -> state -> Prop :=
| step_update_UI labels st :
    step st (state_of (update_UI py_str FMT_format rt_label labels st))
| step_eventFilter source event st :
    step st (state_of (eventFilter simple_eval py_str FMT_format source event st))
| step_load_entries st :
    step st (state_of (load_entries py_str FMT_format st))
| step_sort_dict_freqs st :
    step st (state_of (sort_dict_freqs py_str FMT_format st))
| step_elsewhere st st' :
    layout st' = layout st -> step st st'.

Lemma step_sizes st st' :
  wf st -> step st st' ->
  wf st'
  /\ length (qlabels st) <= length (qlabels st')
  /\ length (qlineedit st) <= length (qlineedit st').
Proof.
  intros Hwf Hstep.
  assert (Hsame : layout st' = layout st ->
                  wf st'
                  /\ length (qlabels st) <= length (qlabels st')
                  /\ length (qlineedit st) <= length (qlineedit st')).
  { intros H. apply sizes_of_layout in H. unfold sizes in H.
    injection H as H1 H2 H3. unfold wf in *. rewrite H1, H2, H3.
    repeat split; try lia; apply Hwf. }
  destruct Hstep as [labels st | source event st | st | st | st st' H].
  - apply update_UI_wf, Hwf.
  - apply Hsame. apply (eventFilter_layout (layout st) source event st eq_refl).
  - apply Hsame. apply (load_entries_layout (layout st) st eq_refl).
  - apply Hsame. apply (sort_dict_freqs_layout (layout st) st eq_refl).
  - apply Hsame, H.
Qed.

Lemma reachable_wf d st : rtc step (init d) st -> wf st.
Proof.
  revert st. apply (rtc_ind_r wf (init d)).
  - unfold wf, init. simpl. split; lia.
  - intros y z _ Hstep Hy. apply (step_sizes y z Hy Hstep).
Qed.

(** C10: in every state the widget reaches from its construction, the label
    list and the line-edit list have the same length; no step shortens
    either list (widgets are hidden, never removed); and a call
    [update_UI(new_labels)] that returns leaves [n_cur_labels] equal to the
    number of labels and the first line edits named by the labels, in
    order. *)
Theorem widget_lists_invariant d st labels :
  rtc step (init d) st ->
  length (qlabels st) = length (qlineedit st)
  /\ (forall st', step st st' ->
        length (qlabels st') = length (qlineedit st')
        /\ length (qlabels st) <= length (qlabels st')
        /\ length (qlineedit st) <= length (qlineedit st'))
  /\ (forall st',
        update_UI py_str FMT_format rt_label labels st = (st', Ok tt) ->
        n_cur_labels st' = length labels
        /\ take (length labels) (objectName <$> qlineedit st') = labels).
Proof.
  intros Hreach. pose proof (reachable_wf d st Hreach) as Hwf.
  split; [apply Hwf | split].
  - intros st' Hstep.
    destruct (step_sizes st st' Hwf Hstep) as ([H1 _] & H2 & H3). auto.
  - intros st' Hrun. apply (update_UI_post labels st st' Hrun).
Qed.

End Bookkeeping.

(** *** The theorems above on concrete inputs *)

Section OnExamples.
Import Examples.



Lemma malformed_input_propagates_witness :
  spec_edited (editing 8 false "1e") = true
  /\ eval_literal (text (a_lineedit "F_PB" "1e" true)) = Raise (EvalError "1e")
  /\ eventFilter eval_literal str_of format_3g
       (LineEdit (a_lineedit "F_PB" "1e" true)) FocusOut (editing 8 false "1e")
     = (editing 8 false "1e", Raise (EvalError "1e")).
Proof.
  assert (H1 : spec_edited (editing 8 false "1e") = true) by reflexivity.
  assert (H2 : eval_literal (text (a_lineedit "F_PB" "1e" true))
               = Raise (EvalError "1e")) by reflexivity.
  split; [exact H1 | split; [exact H2 | ] ].
  exact (proj1 (proj2 (malformed_input_propagates eval_literal str_of format_3g
                         (editing 8 false "1e") (a_lineedit "F_PB" "1e" true)
                         (EvalError "1e") H1 H2))).
Defined.

Lemma dict_writes_gated_by_spec_edited_witness :
  spec_edited (set_spec_edited false (editing 8 false "1000")) = false
  /\ eventFilter eval_literal str_of format_3g
       (LineEdit (a_lineedit "F_PB" "1000" true)) FocusOut
       (set_spec_edited false (editing 8 false "1000"))
     = (set_spec_edited false (editing 8 false "1000"), Ok false).
Proof.
  assert (H1 : spec_edited (set_spec_edited false (editing 8 false "1000"))
               = false) by reflexivity.
  split; [exact H1|].
  exact (proj2 (proj1 (dict_writes_gated_by_spec_edited
                         eval_literal str_of format_3g
                         (set_spec_edited false (editing 8 false "1000"))
                         (LineEdit (a_lineedit "F_PB" "1000" true)) FocusOut)
                  H1 (a_lineedit "F_PB" "1000" true))).
Defined.




Lemma widget_lists_invariant_witness :
  rtc (step eval_literal str_of format_3g plain_label)
      (init (filter_dict 1 false)) bandpass_shown
  /\ length (qlabels bandpass_shown) = 4
  /\ length (qlabels bandpass_shown) = length (qlineedit bandpass_shown)
  /\ result_of (update_UI str_of format_3g plain_label ["F_PB"; "F_SB"]
                  bandpass_shown) = Ok tt
  /\ n_cur_labels (state_of (update_UI str_of format_3g plain_label
                               ["F_PB"; "F_SB"] bandpass_shown)) = 2
  /\ take 2 (objectName <$>
               qlineedit (state_of (update_UI str_of format_3g plain_label
                                      ["F_PB"; "F_SB"] bandpass_shown)))
     = ["F_PB"; "F_SB"].
Proof.
  assert (H1 : rtc (step eval_literal str_of format_3g plain_label)
                   (init (filter_dict 1 false)) bandpass_shown).
  { apply rtc_once. apply step_update_UI. }
  assert (H2 : update_UI str_of format_3g plain_label ["F_PB"; "F_SB"]
                 bandpass_shown
               = (state_of (update_UI str_of format_3g plain_label
                              ["F_PB"; "F_SB"] bandpass_shown), Ok tt))
    by (vm_compute; reflexivity).
  destruct (widget_lists_invariant eval_literal str_of format_3g plain_label
              (filter_dict 1 false) bandpass_shown ["F_PB"; "F_SB"] H1)
    as (T1 & _ & T3).
  destruct (T3 _ H2) as [T4 T5].
  split; [exact H1 | split; [vm_compute; reflexivity | split; [exact T1 | ] ] ].
  split; [rewrite H2; reflexivity | split; [exact T4 | exact T5] ].
Defined.

End OnExamples.

End FreqSpecsFacts.

(** ** Properties of [InputParams] *)

Module InputParamsFacts.
Import Py Eff EffFacts InputParams.
Local Open Scope eff_scope.

Section Facts.

Variable filter_obj : Type.
Variable zpk_t : Type.
Variable objectWizzard : pyval -> outcome filter_obj.
Variable call_method :
  filter_obj -> string -> gmap string pyval ->
  outcome (filter_obj * gmap string pyval).
Variable attr_zpk : filter_obj -> outcome zpk_t.
Variable attr_coeffs : filter_obj -> outcome ndarray.
Variable fo_update fspec_update aspec_update wspec_update wspec_updateElements :
  gmap string pyval -> outcome (gmap string pyval).

Local Abbreviation state := (InputParams.state filter_obj zpk_t).
Local Abbreviation run_startDesignFilt :=
  (startDesignFilt filter_obj zpk_t objectWizzard call_method attr_zpk
     attr_coeffs fo_update fspec_update aspec_update wspec_update
     wspec_updateElements).

Lemma sel_ok k (st st' : state) v :
  sel filter_obj zpk_t k st = (st', Ok v) ->
  st' = st /\ selFilter st !! k = Some v.
Proof.
  unfold sel. destruct (selFilter st !! k); intros H;
    [injection H as <- <-; auto | discriminate H].
Qed.

Lemma get_myFilter_ok (st st' : state) o :
  get_myFilter filter_obj zpk_t st = (st', Ok o) ->
  st' = st /\ myFilter st = Some o.
Proof.
  unfold get_myFilter. destruct (myFilter st); intros H;
    [injection H as <- <-; auto | discriminate H].
Qed.

Lemma lift_ok {A} (r : outcome A) (st st' : state) a :
  lift r st = (st', Ok a) -> st' = st /\ r = Ok a.
Proof. unfold lift. intros H. injection H as <- ->. auto. Qed.

Lemma modify_ok (f : state -> state) (st st' : state) u :
  modify f st = (st', Ok u) -> st' = f st.
Proof. unfold modify. intros H. injection H as <- _. reflexivity. Qed.

Lemma gets_ok {A} (f : state -> A) (st st' : state) a :
  gets f st = (st', Ok a) -> st' = st /\ a = f st.
Proof. unfold gets. intros H. injection H as <- <-. auto. Qed.

Lemma widget_call_ok c f (st st' : state) :
  widget_call filter_obj zpk_t c f st = (st', Ok tt) ->
  exists d, f (selFilter st) = Ok d
            /\ st' = set_selFilter filter_obj zpk_t d (log filter_obj zpk_t c st).
Proof.
  unfold widget_call. intros H.
  apply bind_ok_inv in H as (s1 & [] & H1 & H). apply modify_ok in H1 as ->.
  apply bind_ok_inv in H as (s2 & d & H2 & H). apply gets_ok in H2 as [-> ->].
  apply bind_ok_inv in H as (s3 & d' & H3 & H). apply lift_ok in H3 as [-> H3].
  apply modify_ok in H as ->. exists d'. split; [exact H3 | reflexivity].
Qed.

(** The string a method name is put together from. *)
Lemma py_add_string a b n :
  py_add a b = Ok (PStr n) ->
  exists s t, a = PStr s /\ b = PStr t /\ n = (s ++ t)%string.
Proof.
  destruct a as [x|x|s], b as [y|y|t]; simpl; intros H; try discriminate H.
  injection H as <-. exists s, t. auto.
Qed.

(** A run of [startDesignFilt] that returns, step by step. *)
Lemma startDesignFilt_inv (st st' : state) :
  run_startDesignFilt st = (st', Ok tt) ->
  exists d1 d2 d3 d4 dm o rt fo o' d5 d6 d7 z c,
    fo_update (selFilter st) = Ok d1
    /\ fspec_update d1 = Ok d2
    /\ aspec_update d2 = Ok d3
    /\ wspec_update d3 = Ok d4
    /\ d4 !! "dm" = Some dm
    /\ objectWizzard dm = Ok o
    /\ d4 !! "rt" = Some (PStr rt)
    /\ d4 !! "fo" = Some (PStr fo)
    /\ call_method o (rt ++ fo)%string d4 = Ok (o', d5)
    /\ fo_update d5 = Ok d6
    /\ wspec_updateElements d6 = Ok d7
    /\ attr_zpk o' = Ok z
    /\ attr_coeffs o' = Ok c
    /\ trace st' =
       trace st ++ [Call_fo_update; Call_fspec_update; Call_aspec_update;
                    Call_wspec_update; Call_objectWizzard dm;
                    Call_method (rt ++ fo)%string d4; Call_fo_update;
                    Call_wspec_updateElements; Write_zpk; Write_coeffs]
    /\ selFilter st' = d7
    /\ myFilter st' = Some o'
    /\ gD_zpk st' = Some z
    /\ gD_coeffs st' = Some (read_back c).
Proof.
  unfold startDesignFilt, writeAll. intros H.
  apply bind_ok_inv in H as (s & [] & HW & H).
  apply bind_ok_inv in HW as (s1 & [] & H1 & HW).
  apply widget_call_ok in H1 as (d1 & Hd1 & ->).
  apply bind_ok_inv in HW as (s2 & [] & H2 & HW).
  apply widget_call_ok in H2 as (d2 & Hd2 & ->).
  apply bind_ok_inv in HW as (s3 & [] & H3 & HW).
  apply widget_call_ok in H3 as (d3 & Hd3 & ->).
  apply widget_call_ok in HW as (d4 & Hd4 & ->).
  simpl in Hd2, Hd3, Hd4.
  apply bind_ok_inv in H as (s & debug & Hg & H). apply gets_ok in Hg as [-> _].
  apply bind_ok_inv in H as (s & [] & Hdbg & H).
  assert (s = set_selFilter filter_obj zpk_t d4
                (log filter_obj zpk_t Call_wspec_update
                   (set_selFilter filter_obj zpk_t d3
                      (log filter_obj zpk_t Call_aspec_update
                         (set_selFilter filter_obj zpk_t d2
                            (log filter_obj zpk_t Call_fspec_update
                               (set_selFilter filter_obj zpk_t d1
                                  (log filter_obj zpk_t Call_fo_update st)))))))) as ->.
  { destruct debug; [ | injection Hdbg as <-; reflexivity ].
    apply bind_ok_inv in Hdbg as (sa & ? & Ha & Hdbg).
    injection Hdbg as <-. unfold debug_name in Ha.
    apply bind_ok_inv in Ha as (? & ? & Hx & Ha). apply sel_ok in Hx as [-> _].
    apply bind_ok_inv in Ha as (? & ? & Hx & Ha). apply lift_ok in Hx as [-> _].
    apply bind_ok_inv in Ha as (? & ? & Hx & Ha). apply sel_ok in Hx as [-> _].
    apply bind_ok_inv in Ha as (? & ? & Hx & Ha). apply lift_ok in Hx as [-> _].
    apply bind_ok_inv in Ha as (? & ? & Hx & Ha). apply sel_ok in Hx as [-> _].
    apply lift_ok in Ha as [-> _]. reflexivity. }
  apply bind_ok_inv in H as (s & dm & Hx & H). apply sel_ok in Hx as [-> Hdm].
  apply bind_ok_inv in H as (s & [] & Hx & H). apply modify_ok in Hx as ->.
  apply bind_ok_inv in H as (s & o & Hx & H). apply lift_ok in Hx as [-> Ho].
  apply bind_ok_inv in H as (s & [] & Hx & H). apply modify_ok in Hx as ->.
  apply bind_ok_inv in H as (s & o1 & Hx & H).
  apply get_myFilter_ok in Hx as [-> Hx]. simpl in Hx. injection Hx as <-.
  apply bind_ok_inv in H as (s & rt & Hx & H). apply sel_ok in Hx as [-> Hrt].
  apply bind_ok_inv in H as (s & fo & Hx & H). apply sel_ok in Hx as [-> Hfo].
  apply bind_ok_inv in H as (s & name & Hx & H). apply lift_ok in Hx as [-> Hname].
  apply bind_ok_inv in H as (s & [] & Hcall & H).
  destruct name as [x|x|n]; try discriminate Hcall.
  apply py_add_string in Hname as (srt & sfo & -> & -> & ->).
  apply bind_ok_inv in Hcall as (sa & specs & Hx & Hcall).
  apply gets_ok in Hx as [-> ->].
  apply bind_ok_inv in Hcall as (sa & [] & Hx & Hcall). apply modify_ok in Hx as ->.
  apply bind_ok_inv in Hcall as (sa & [o' d5] & Hx & Hcall).
  apply lift_ok in Hx as [-> Hmeth].
  apply bind_ok_inv in Hcall as (sa & [] & Hx & Hcall). apply modify_ok in Hx as ->.
  apply modify_ok in Hcall as ->. simpl in *.
  apply bind_ok_inv in H as (s & [] & Hx & H).
  apply widget_call_ok in Hx as (d6 & Hd6 & ->).
  apply bind_ok_inv in H as (s & [] & Hx & H).
  apply widget_call_ok in Hx as (d7 & Hd7 & ->). simpl in Hd6, Hd7.
  apply bind_ok_inv in H as (s & o2 & Hx & H).
  apply get_myFilter_ok in Hx as [-> Hx]. simpl in Hx. injection Hx as <-.
  apply bind_ok_inv in H as (s & z & Hx & H). apply lift_ok in Hx as [-> Hz].
  apply bind_ok_inv in H as (s & [] & Hx & H). apply modify_ok in Hx as ->.
  apply bind_ok_inv in H as (s & o2 & Hx & H).
  apply get_myFilter_ok in Hx as [-> Hx]. simpl in Hx. injection Hx as <-.
  apply bind_ok_inv in H as (s & c & Hx & H). apply lift_ok in Hx as [-> Hc].
  exists d1, d2, d3, d4, dm, o, srt, sfo, o', d5, d6, d7, z, c.
  repeat (split; [assumption | ]).
  unfold read_back.
  destruct (np_ndim c =? 1)%nat.
  - apply bind_ok_inv in H as (s & o2 & Hx & H).
    apply get_myFilter_ok in Hx as [-> Hx]. simpl in Hx. injection Hx as <-.
    apply bind_ok_inv in H as (s & c' & Hx & H). apply lift_ok in Hx as [-> Hc'].
    apply modify_ok in H as ->. simpl.
    assert (c' = c) by congruence. subst c'.
    rewrite <- !app_assoc. simpl. repeat split; reflexivity.
  - apply bind_ok_inv in H as (s & o2 & Hx & H).
    apply get_myFilter_ok in Hx as [-> Hx]. simpl in Hx. injection Hx as <-.
    apply bind_ok_inv in H as (s & c' & Hx & H). apply lift_ok in Hx as [-> Hc'].
    apply modify_ok in H as ->. simpl.
    assert (c' = c) by congruence. subst c'.
    rewrite <- !app_assoc. simpl. repeat split; reflexivity.
Qed.

(** Coefficient data with a numerator and a denominator. *)
Definition numerator_denominator (c : ndarray) : Prop :=
  exists b a, c = Tup [b; a] \/ c = Arr [b; a].

(** C6: a run of [startDesignFilt] that returns has, in this order,
    written the widget entries into [fb.gD['selFilter']] ([writeAll]: the
    four [update] calls), obtained the filter object from [objectWizzard]
    for the entry ['dm'], called on it the method named by the entries
    ['rt'] and ['fo'] joined, with the spec dictionary as argument, and
    afterwards (the order widget and the weight widget are updated in
    between) stored the object's [zpk] in [fb.gD['zpk']] and its [coeffs]
    in [fb.gD['coeffs']] (paired with [[1]] when one-dimensional). *)
Theorem startDesignFilt_delegates (st st' : state) :
  run_startDesignFilt st = (st', Ok tt) ->
  exists specs dm obj rt fo obj' specs' z c,
    (exists d1 d2 d3,
        fo_update (selFilter st) = Ok d1 /\ fspec_update d1 = Ok d2
        /\ aspec_update d2 = Ok d3 /\ wspec_update d3 = Ok specs)
    /\ specs !! "dm" = Some dm /\ objectWizzard dm = Ok obj
    /\ specs !! "rt" = Some (PStr rt) /\ specs !! "fo" = Some (PStr fo)
    /\ call_method obj (rt ++ fo)%string specs = Ok (obj', specs')
    /\ attr_zpk obj' = Ok z /\ gD_zpk st' = Some z
    /\ attr_coeffs obj' = Ok c
    /\ (gD_coeffs st' = Some c \/ gD_coeffs st' = Some (Tup [c; Arr [Num 1]]))
    /\ trace st' =
       trace st ++ [Call_fo_update; Call_fspec_update; Call_aspec_update;
                    Call_wspec_update; Call_objectWizzard dm;
                    Call_method (rt ++ fo)%string specs; Call_fo_update;
                    Call_wspec_updateElements; Write_zpk; Write_coeffs].
Proof.
  intros H.
  destruct (startDesignFilt_inv st st' H)
    as (d1 & d2 & d3 & d4 & dm & o & rt & fo & o' & d5 & d6 & d7 & z & c
        & H1 & H2 & H3 & H4 & Hdm & Ho & Hrt & Hfo & Hcall & _ & _ & Hz & Hc
        & Htrace & _ & _ & Hgz & Hgc).
  exists d4, dm, o, rt, fo, o', d5, z, c.
  split; [exists d1, d2, d3; auto | ].
  repeat (split; [assumption | ]).
  split; [ | exact Htrace ].
  rewrite Hgc. unfold read_back. destruct (np_ndim c =? 1)%nat; auto.
Qed.


End Facts.

(** *** The theorems above on concrete inputs *)

Section OnExamples.
Import Examples.

Lemma startDesignFilt_delegates_witness :
  toy_startDesignFilt (design_request "cheby1" true)
  = (state_of (toy_startDesignFilt (design_request "cheby1" true)), Ok tt)
  /\ trace (state_of (toy_startDesignFilt (design_request "cheby1" true)))
     = [Call_fo_update; Call_fspec_update; Call_aspec_update;
        Call_wspec_update; Call_objectWizzard (PStr "cheby1");
        Call_method "LPman" (design_specs "cheby1"); Call_fo_update;
        Call_wspec_updateElements; Write_zpk; Write_coeffs]
  /\ exists specs dm obj rt fo obj' specs',
       specs !! "dm" = Some dm /\ toy_objectWizzard dm = Ok obj
       /\ specs !! "rt" = Some (PStr rt) /\ specs !! "fo" = Some (PStr fo)
       /\ toy_call_method obj (rt ++ fo)%string specs = Ok (obj', specs').
Proof.
  assert (H : toy_startDesignFilt (design_request "cheby1" true)
              = (state_of (toy_startDesignFilt (design_request "cheby1" true)),
                 Ok tt)) by (vm_compute; reflexivity).
  split; [exact H | split; [vm_compute; reflexivity | ] ].
  destruct (startDesignFilt_delegates _ _ _ _ _ _ _ _ _ _ _ _ _ H)
    as (specs & dm & obj & rt & fo & obj' & specs' & z & c
        & _ & Hdm & Ho & Hrt & Hfo & Hcall & _).
  exists specs, dm, obj, rt, fo, obj', specs'. auto.
Defined.


End OnExamples.

End InputParamsFacts.

(** ** More on [InputFreqSpecs]: display, sorting, events *)

Module FreqSpecsMore.
Import Py Eff EffFacts FreqSpecs FloatOrder SortFacts FreqSpecsFacts.
Local Open Scope eff_scope.

Lemma set_qlineedit_same st l :
  qlineedit st = l -> set_qlineedit (fun _ => l) st = st.
Proof. intros <-. destruct st; reflexivity. Qed.

Section Display.

Variable py_str : pyval -> string.
Variable FMT_format : pyval -> option string.

(** [load_entries] as a function of the dictionary and the line edits:
    texts are replaced from the first line edit on, up to the first one
    whose text cannot be computed. *)
Fixpoint refresh (d : gmap string pyval) (l : list QLineEdit)
    : list QLineEdit * outcome unit :=
  match l with
  | [] => ([], Ok tt)
  | w :: l' =>
      match shown_text py_str FMT_format d w with
      | Ok t => (setText t w :: fst (refresh d l'), snd (refresh d l'))
      | Raise e => (w :: l', Raise e)
      end
  end.

Lemma bind_ok_or_raise_load st i w (k : unit -> M state unit) :
  qlineedit st !! i = Some w ->
  bind (load_body py_str FMT_format i) k st =
  match shown_text py_str FMT_format (fil st) w with
  | Ok t => k tt (set_qlineedit (fun l => <[i := setText t w]> l) st)
  | Raise e => (st, Raise e)
  end.
Proof.
  intros Hw. unfold bind at 1. rewrite (load_body_run _ _ _ _ _ Hw).
  destruct (shown_text py_str FMT_format (fil st) w); reflexivity.
Qed.

Lemma load_loop_run l2 : forall l1 st,
  qlineedit st = l1 ++ l2 ->
  for_each (seq (length l1) (length l2)) (load_body py_str FMT_format) st =
  (set_qlineedit (fun _ => l1 ++ fst (refresh (fil st) l2)) st,
   snd (refresh (fil st) l2)).
Proof.
  induction l2 as [|w l2 IH]; intros l1 st Hst.
  - simpl. rewrite set_qlineedit_same by exact Hst. reflexivity.
  - simpl.
    assert (Hw : qlineedit st !! length l1 = Some w).
    { rewrite Hst. apply list_lookup_middle. reflexivity. }
    rewrite (bind_ok_or_raise_load st (length l1) w _ Hw).
    destruct (shown_text py_str FMT_format (fil st) w) as [t|e]; simpl.
    + specialize (IH (l1 ++ [setText t w])
                    (set_qlineedit (fun l => <[length l1 := setText t w]> l) st)).
      rewrite length_app in IH. simpl in IH.
      replace (length l1 + 1) with (S (length l1)) in IH by lia.
      rewrite IH.
      * simpl. rewrite <- app_assoc. reflexivity.
      * simpl. rewrite Hst.
        rewrite insert_app_r_alt by lia. rewrite Nat.sub_diag. simpl.
        rewrite <- app_assoc. reflexivity.
    + rewrite set_qlineedit_same by exact Hst. reflexivity.
Qed.

Lemma load_entries_run st :
  load_entries py_str FMT_format st =
  (set_qlineedit (fun _ => fst (refresh (fil st) (qlineedit st))) st,
   snd (refresh (fil st) (qlineedit st))).
Proof.
  rewrite load_entries_unfold.
  apply (load_loop_run (qlineedit st) [] st). reflexivity.
Qed.

Lemma refresh_ok d l :
  snd (refresh d l) = Ok tt ->
  Forall2 (fun w w' => exists t, shown_text py_str FMT_format d w = Ok t
                                 /\ w' = setText t w)
          l (fst (refresh d l)).
Proof.
  induction l as [|w l IH]; simpl; intros H; [constructor|].
  destruct (shown_text py_str FMT_format d w) as [t|e] eqn:Ht; simpl in *.
  - constructor; [exists t; auto | apply IH, H].
  - discriminate H.
Qed.

Lemma refresh_again d l :
  snd (refresh d l) = Ok tt ->
  refresh d (fst (refresh d l)) = (fst (refresh d l), Ok tt).
Proof.
  induction l as [|w l IH]; simpl; intros H; [reflexivity|].
  destruct (shown_text py_str FMT_format d w) as [t|e] eqn:Ht; simpl in *.
  - change (shown_text py_str FMT_format d (setText t w))
      with (shown_text py_str FMT_format d w).
    rewrite Ht, (IH H). reflexivity.
  - discriminate H.
Qed.

Lemma refresh_app d l1 l2 :
  snd (refresh d l1) = Ok tt ->
  refresh d (l1 ++ l2)
  = (fst (refresh d l1) ++ fst (refresh d l2), snd (refresh d l2)).
Proof.
  induction l1 as [|w l1 IH]; simpl; intros H.
  - destruct (refresh d l2); reflexivity.
  - destruct (shown_text py_str FMT_format d w) as [t|e]; simpl in *.
    + rewrite (IH H). reflexivity.
    + discriminate H.
Qed.

(** X1: a call of [load_entries] that returns has given every line edit,
    and nothing else, a new text: [FMT] of the stored value times [f_S], or
    [str] of it for the line edit that has the focus. *)
Theorem load_entries_texts st st' :
  load_entries py_str FMT_format st = (st', Ok tt) ->
  st' = set_qlineedit (fun _ => qlineedit st') st
  /\ Forall2 (fun w w' =>
                exists t, shown_text py_str FMT_format (fil st) w = Ok t
                          /\ w' = setText t w)
             (qlineedit st) (qlineedit st').
Proof.
  rewrite load_entries_run. intros H. injection H as <- Hok.
  split; [reflexivity | apply refresh_ok, Hok].
Qed.

(** X2: [load_entries] is idempotent: after a call that returned, a second
    call returns too and changes nothing. *)
Theorem load_entries_idempotent st st' :
  load_entries py_str FMT_format st = (st', Ok tt) ->
  load_entries py_str FMT_format st' = (st', Ok tt).
Proof.
  rewrite !load_entries_run. intros H. injection H as <- Hok. simpl.
  rewrite (refresh_again _ _ Hok). reflexivity.
Qed.

(** X3: [load_entries] stops at the first line edit whose name is not a
    key of [fb.fil[0]]: it raises [KeyError] for that name, the line edits
    before it carry their new texts, and that line edit and all after it
    keep their old ones. *)
Theorem load_entries_stops_at_missing_label st l1 w l2 :
  qlineedit st = l1 ++ w :: l2 ->
  snd (refresh (fil st) l1) = Ok tt ->
  fil st !! objectName w = None ->
  load_entries py_str FMT_format st =
  (set_qlineedit (fun _ => fst (refresh (fil st) l1) ++ w :: l2) st,
   Raise (KeyError (objectName w)))
  /\ Forall2 (fun w0 w' =>
                exists t, shown_text py_str FMT_format (fil st) w0 = Ok t
                          /\ w' = setText t w0)
             l1 (fst (refresh (fil st) l1)).
Proof.
  intros Hst Hl1 Hw. split; [ | apply refresh_ok, Hl1 ].
  rewrite load_entries_run, Hst, (refresh_app _ _ _ Hl1). simpl.
  unfold shown_text. rewrite Hw. reflexivity.
Qed.

End Display.

(** *** Sorting: all or nothing *)

(** The comprehension of [sort_dict_freqs] as a function: the values under
    the names of the line edits, or the [KeyError] of the first name that
    is no key. *)
Fixpoint read_all (d : gmap string pyval) (l : list QLineEdit)
    : outcome (list pyval) :=
  match l with
  | [] => Ok []
  | w :: l' =>
      match d !! objectName w with
      | None => Raise (KeyError (objectName w))
      | Some v =>
          match read_all d l' with
          | Ok vs => Ok (v :: vs)
          | Raise e => Raise e
          end
      end
  end.

Lemma collect_read_all l2 : forall l1 st,
  qlineedit st = l1 ++ l2 ->
  collect (seq (length l1) (length l2)) read_body st
  = (st, read_all (fil st) l2).
Proof.
  induction l2 as [|w l2 IH]; intros l1 st Hst; [reflexivity|].
  simpl. unfold bind at 1. unfold read_body at 1, bind at 1.
  rewrite lineedit_at_run.
  assert (Hw : qlineedit st !! length l1 = Some w).
  { rewrite Hst. apply list_lookup_middle. reflexivity. }
  rewrite Hw, getitem_run.
  destruct (fil st !! objectName w) as [v|]; [ | reflexivity ].
  unfold bind at 1.
  specialize (IH (l1 ++ [w]) st). rewrite length_app in IH. simpl in IH.
  replace (length l1 + 1) with (S (length l1)) in IH by lia.
  rewrite IH by (rewrite <- app_assoc; exact Hst).
  destruct (read_all (fil st) l2); reflexivity.
Qed.

Lemma collect_read_all_from_0 st :
  collect (seq 0 (length (qlineedit st))) read_body st
  = (st, read_all (fil st) (qlineedit st)).
Proof. apply (collect_read_all (qlineedit st) [] st eq_refl). Qed.

Lemma read_all_ok d l vs :
  read_all d l = Ok vs ->
  Forall2 (fun w v => d !! objectName w = Some v) l vs.
Proof.
  revert vs. induction l as [|w l IH]; simpl; intros vs H.
  - injection H as <-. constructor.
  - destruct (d !! objectName w) as [v|] eqn:Hv; [ | discriminate H ].
    destruct (read_all d l) as [vs'|e]; [ | discriminate H ].
    injection H as <-. constructor; [exact Hv | apply IH; reflexivity].
Qed.

Lemma read_all_of_values d l vs :
  Forall2 (fun w v => d !! objectName w = Some v) l vs ->
  read_all d l = Ok vs.
Proof.
  induction 1 as [|w v l vs Hv _ IH]; simpl; [reflexivity|].
  rewrite Hv, IH. reflexivity.
Qed.

Lemma read_all_missing d l1 w l2 :
  d !! objectName w = None ->
  exists k, read_all d (l1 ++ w :: l2) = Raise (KeyError k).
Proof.
  intros Hw. induction l1 as [|w1 l1 [k IH]]; simpl.
  - rewrite Hw. eauto.
  - destruct (d !! objectName w1); [rewrite IH | ]; eauto.
Qed.

(** Strings and numbers do not compare. *)
Definition is_text (v : pyval) : bool :=
  match v with PStr _ => true | _ => false end.

Lemma py_lt_same_kind a b r : py_lt a b = Ok r -> is_text a = is_text b.
Proof. destruct a, b; simpl; intros H; first [reflexivity | discriminate H]. Qed.

Lemma list_sort_same_kind l : forall s,
  list_sort l = Ok s -> exists k, Forall (fun v => is_text v = k) l.
Proof.
  induction l as [|x l IH]; simpl; intros s H.
  - exists true. constructor.
  - destruct (list_sort l) as [s'|e] eqn:Hs'; [ | discriminate H ].
    destruct (IH s' eq_refl) as [k Hk].
    pose proof (list_sort_perm l s' Hs') as Hperm.
    destruct s' as [|y s''].
    + apply Permutation_nil_r in Hperm. subst l.
      exists (is_text x). repeat constructor.
    + exists k. constructor; [ | exact Hk ].
      assert (Hy : is_text y = k).
      { rewrite Hperm in Hk. apply Forall_cons in Hk as [Hy _]. exact Hy. }
      simpl in H. destruct (py_lt y x) as [b|e] eqn:Hlt; [ | discriminate H ].
      rewrite <- Hy. symmetry. eapply py_lt_same_kind, Hlt.
Qed.

Lemma list_sort_mixed vals s v :
  PStr s ∈ vals -> v ∈ vals -> is_text v = false ->
  list_sort vals = Raise TypeError.
Proof.
  intros Hs Hv Hnum. destruct (list_sort vals) as [r|e] eqn:Hsort.
  - destruct (list_sort_same_kind vals r Hsort) as [k Hk].
    rewrite List.Forall_forall in Hk.
    pose proof (Hk _ (proj1 (list_elem_of_In _ _) Hs)) as H1.
    pose proof (Hk _ (proj1 (list_elem_of_In _ _) Hv)) as H2.
    simpl in H1. congruence.
  - f_equal. eapply list_sort_raises, Hsort.
Qed.

Lemma leb_not_ltb x y :
  PrimFloat.eqb x x = true -> PrimFloat.eqb y y = true ->
  PrimFloat.leb x y = true -> PrimFloat.ltb y x = false.
Proof.
  intros Hx Hy H. apply (leb_rank x y Hx Hy) in H.
  destruct (PrimFloat.ltb y x) eqn:Hlt; [ | reflexivity ].
  apply (ltb_rank y x Hy Hx) in Hlt. unfold rank_le, rank_lt in *. lia.
Qed.

(** Sorting a sorted list of numbers returns it as it is. *)
Lemma list_sort_sorted s :
  Forall ordered_number s -> StronglySorted py_le s -> list_sort s = Ok s.
Proof.
  induction s as [|x s IH]; intros Hord Hsorted; [reflexivity|].
  apply Forall_cons in Hord as [Hx Hord].
  apply StronglySorted_inv in Hsorted as [Hsorted Hall].
  simpl. rewrite (IH Hord Hsorted).
  destruct s as [|y s]; [reflexivity|]. simpl.
  apply Forall_cons in Hord as [Hy _].
  apply Forall_cons in Hall as [(x' & y' & Hx' & Hy' & Hle) _].
  destruct Hx as (fx & Hfx & Hxn). destruct Hy as (fy & Hfy & Hyn).
  assert (x' = fx) by congruence. assert (y' = fy) by congruence. subst.
  rewrite (py_lt_numbers y x fy fx Hfy Hfx).
  rewrite (leb_not_ltb fx fy Hxn Hyn Hle). reflexivity.
Qed.

Section Sorting.

Variable py_str : pyval -> string.
Variable FMT_format : pyval -> option string.

(** [sort_dict_freqs] with the flag set, as a function of the state. *)
Lemma sort_dict_freqs_run st flag :
  fil st !! "freq_specs_sort" = Some flag -> truthy flag = true ->
  sort_dict_freqs py_str FMT_format st =
  match read_all (fil st) (qlineedit st) with
  | Raise e => (st, Raise e)
  | Ok vals =>
      match list_sort vals with
      | Raise e => (st, Raise e)
      | Ok sorted =>
          load_entries py_str FMT_format
            (set_fil (write_back (zip (objectName <$> qlineedit st) sorted)) st)
      end
  end.
Proof.
  intros Hflag Ht.
  destruct (read_all (fil st) (qlineedit st)) as [vals|e] eqn:Hread.
  - destruct (list_sort vals) as [sorted|e] eqn:Hsort.
    + apply (sort_dict_freqs_on py_str FMT_format st flag vals sorted Hflag Ht);
        [apply read_all_ok, Hread | exact Hsort].
    + rewrite sort_dict_freqs_unfold, Hflag, Ht.
      rewrite collect_read_all_from_0, Hread, Hsort.
      reflexivity.
  - rewrite sort_dict_freqs_unfold, Hflag, Ht.
    rewrite collect_read_all_from_0, Hread.
    reflexivity.
Qed.

(** X4: with sorting on, [sort_dict_freqs] is all or nothing on errors.
    Without the key ['freq_specs_sort'], with a line edit whose name is no
    key of [fb.fil[0]] ([KeyError]), or with a string among numeric values
    ([TypeError] of the comparison), it raises before the first write and
    leaves the whole state, dictionary and texts, as it was. *)
Theorem sort_dict_freqs_all_or_nothing st :
  (fil st !! "freq_specs_sort" = None ->
   sort_dict_freqs py_str FMT_format st
   = (st, Raise (KeyError "freq_specs_sort")))
  /\ (forall flag,
        fil st !! "freq_specs_sort" = Some flag -> truthy flag = true ->
        (forall l1 w l2,
            qlineedit st = l1 ++ w :: l2 -> fil st !! objectName w = None ->
            exists k, sort_dict_freqs py_str FMT_format st
                      = (st, Raise (KeyError k)))
        /\ (forall vals s v,
              Forall2 (fun w x => fil st !! objectName w = Some x)
                      (qlineedit st) vals ->
              PStr s ∈ vals -> v ∈ vals -> is_text v = false ->
              sort_dict_freqs py_str FMT_format st = (st, Raise TypeError))).
Proof.
  split.
  - intros Hnone. rewrite sort_dict_freqs_unfold, Hnone. reflexivity.
  - intros flag Hflag Ht. split.
    + intros l1 w l2 Hst Hw.
      destruct (read_all_missing (fil st) l1 w l2 Hw) as [k Hk].
      exists k. rewrite (sort_dict_freqs_run st flag Hflag Ht), Hst, Hk.
      reflexivity.
    + intros vals s v Hvals Hs Hv Hnum.
      rewrite (sort_dict_freqs_run st flag Hflag Ht).
      rewrite (read_all_of_values _ _ _ Hvals).
      rewrite (list_sort_mixed vals s v Hs Hv Hnum). reflexivity.
Qed.

(** X5: sorting is idempotent on the dictionary.  For line edits with
    pairwise distinct names (none of them the flag itself) that hold
    numbers, a second [sort_dict_freqs] leaves [fb.fil[0]] as the first one
    left it. *)
Theorem sort_dict_freqs_twice st flag vals :
  fil st !! "freq_specs_sort" = Some flag -> truthy flag = true ->
  "freq_specs_sort" ∉ objectName <$> qlineedit st ->
  NoDup (objectName <$> qlineedit st) ->
  Forall2 (fun w v => fil st !! objectName w = Some v) (qlineedit st) vals ->
  Forall ordered_number vals ->
  fil (state_of (sort_dict_freqs py_str FMT_format
                   (state_of (sort_dict_freqs py_str FMT_format st))))
  = fil (state_of (sort_dict_freqs py_str FMT_format st)).
Proof.
  intros Hflag Ht Hnot Hnd Hvals Hord.
  destruct (list_sort_ordered vals Hord) as (sorted & Hsort & Hperm & Hsorted).
  set (nms := objectName <$> qlineedit st) in *.
  assert (Hlen : length nms = length sorted).
  { unfold nms. rewrite length_fmap, (Forall2_length _ _ _ Hvals).
    apply Permutation_length, Hperm. }
  assert (Hfst : (zip nms sorted).*1 = nms) by (apply fst_zip; lia).
  set (d1 := write_back (zip nms sorted) (fil st)).
  set (s0 := set_fil (write_back (zip nms sorted)) st).
  assert (H1 : sort_dict_freqs py_str FMT_format st
               = load_entries py_str FMT_format s0).
  { rewrite (sort_dict_freqs_run st flag Hflag Ht).
    rewrite (read_all_of_values _ _ _ Hvals), Hsort. reflexivity. }
  rewrite H1.
  set (st1 := state_of (load_entries py_str FMT_format s0)).
  assert (Hfil1 : fil st1 = d1) by apply load_entries_fil.
  assert (Hnames1 : objectName <$> qlineedit st1 = nms).
  { apply (same_widgets_names (qlineedit s0)).
    apply load_entries_same_widgets. }
  assert (Hlook : forall i n v, nms !! i = Some n -> sorted !! i = Some v ->
                                d1 !! n = Some v).
  { intros i n v Hn Hv. apply (write_back_in _ _ i).
    - rewrite Hfst. exact Hnd.
    - apply lookup_zip_Some. split; assumption. }
  assert (Hvals1 : Forall2 (fun w v => fil st1 !! objectName w = Some v)
                           (qlineedit st1) sorted).
  { assert (H' : Forall2 (fun n v => fil st1 !! n = Some v)
                         (objectName <$> qlineedit st1) sorted).
    { rewrite Hnames1, Hfil1.
      apply Forall2_same_length_lookup_2; [exact Hlen | exact Hlook]. }
    apply Forall2_fmap_l in H'. exact H'. }
  assert (Hflag1 : fil st1 !! "freq_specs_sort" = Some flag).
  { rewrite Hfil1. unfold d1. rewrite write_back_notin; [exact Hflag|].
    rewrite Hfst. exact Hnot. }
  rewrite (sort_dict_freqs_run st1 flag Hflag1 Ht).
  rewrite (read_all_of_values _ _ _ Hvals1).
  rewrite (list_sort_sorted sorted); [ | | exact Hsorted ].
  2:{ apply (Permutation_Forall Hperm), Hord. }
  rewrite load_entries_fil. simpl. rewrite Hnames1, Hfil1.
  apply map_eq. intros k.
  destruct (decide (k ∈ nms)) as [Hin | Hout].
  - apply list_elem_of_lookup in Hin as [i Hi].
    destruct (lookup_lt_is_Some_2 sorted i) as [v Hv].
    { rewrite <- Hlen. eapply lookup_lt_Some, Hi. }
    rewrite (Hlook i k v Hi Hv).
    apply (write_back_in _ _ i); [rewrite Hfst; exact Hnd | ].
    apply lookup_zip_Some. split; assumption.
  - apply write_back_notin. rewrite Hfst. exact Hout.
Qed.

End Sorting.

(** *** Events, the flag and the signal *)

Section Events.

Variable simple_eval : string -> outcome pyval.
Variable py_str : pyval -> string.
Variable FMT_format : pyval -> option string.

(** [sort_dict_freqs] writes dictionary entries and texts, nothing else. *)
Lemma sort_dict_freqs_frame (P : state -> Prop) :
  (forall st i s w, P st -> qlineedit st !! i = Some w ->
                    P (set_qlineedit (fun l => <[i := setText s w]> l) st)) ->
  (forall st f, P st -> P (set_fil f st)) ->
  preserves P (sort_dict_freqs py_str FMT_format).
Proof.
  intros Htext Hfil. unfold sort_dict_freqs, setitem. step_preserves;
    first [ apply preserves_getitem
          | apply preserves_lineedit_at
          | apply load_entries_frame; exact Htext
          | apply preserves_modify; intros; apply Hfil; assumption ].
Qed.

(** The edit flag and the count of emitted signals. *)
Definition flags (st : state) : bool * nat :=
  (spec_edited st, sigSpecsChanged st).

Lemma sort_dict_freqs_flags st :
  flags (state_of (sort_dict_freqs py_str FMT_format st)) = flags st.
Proof.
  apply (sort_dict_freqs_frame (fun s => flags s = flags st));
    [ intros; assumption | intros; assumption | reflexivity ].
Qed.

Lemma store_entry_no_f_S st w v :
  spec_edited st = true -> simple_eval (text w) = Ok v ->
  fil st !! "f_S" = None ->
  _store_entry simple_eval py_str FMT_format w st = (st, Raise (KeyError "f_S")).
Proof.
  intros H Hv HfS. unfold _store_entry, bind, gets, lift.
  rewrite H, Hv, getitem_run, HfS. reflexivity.
Qed.

(** X6: [_store_entry] emits [sigSpecsChanged] and clears [spec_edited]
    only at the very end.  A call on an edited field that returns has
    emitted the signal exactly once and cleared the flag; a call that
    raises (rejected text, missing key, failed division, sort or reload)
    has emitted nothing and leaves the flag set. *)
Theorem store_entry_signal_and_flag st w :
  (spec_edited st = true ->
   result_of (_store_entry simple_eval py_str FMT_format w st) = Ok tt ->
   sigSpecsChanged (state_of (_store_entry simple_eval py_str FMT_format w st))
   = S (sigSpecsChanged st)
   /\ spec_edited (state_of (_store_entry simple_eval py_str FMT_format w st))
      = false)
  /\ (forall e,
        result_of (_store_entry simple_eval py_str FMT_format w st) = Raise e ->
        sigSpecsChanged (state_of (_store_entry simple_eval py_str FMT_format w st))
        = sigSpecsChanged st
        /\ spec_edited (state_of (_store_entry simple_eval py_str FMT_format w st))
           = true).
Proof.
  destruct (spec_edited st) eqn:Hflag.
  2:{ rewrite (store_entry_not_edited _ _ _ st w Hflag).
      split; [intros H; discriminate H | intros e H; discriminate H]. }
  destruct (simple_eval (text w)) as [v|e0] eqn:Hv.
  2:{ rewrite (store_entry_eval_raises _ _ _ st w e0 Hflag Hv).
      split; [intros _ H; discriminate H | intros e _; auto]. }
  destruct (fil st !! "f_S") as [f_S|] eqn:HfS.
  2:{ rewrite (store_entry_no_f_S st w v Hflag Hv HfS).
      split; [intros _ H; discriminate H | intros e _; auto]. }
  destruct (py_truediv v f_S) as [q|e0] eqn:Hq.
  2:{ rewrite (store_entry_division_raises _ _ _ st w v f_S e0 Hflag Hv HfS Hq).
      split; [intros _ H; discriminate H | intros e _; auto]. }
  rewrite (store_entry_run _ _ _ st w v f_S q Hflag Hv HfS Hq).
  pose proof (sort_dict_freqs_flags (stored w q st)) as Hfl.
  unfold flags, state_of, result_of in *.
  destruct (sort_dict_freqs py_str FMT_format (stored w q st)) as [s2 [[]|e0]];
    simpl in *; injection Hfl as Hf1 Hf2.
  - split; [intros _ _; split; [congruence | reflexivity]
           | intros e H; discriminate H].
  - split; [intros _ H; discriminate H | intros e _; split; congruence].
Qed.

Lemma eventFilter_reset st w event :
  event = FocusIn \/ event = KeyPress Key_Escape ->
  eventFilter simple_eval py_str FMT_format (LineEdit w) event st =
  match load_entries py_str FMT_format (set_spec_edited false st) with
  | (s, Ok _) => (s, Ok false)
  | (s, Raise e) => (s, Raise e)
  end.
Proof. intros [-> | ->]; reflexivity. Qed.

(** X7: without typing, nothing is stored.  After a [FocusIn] or an Escape
    key press in a line edit (whether its reload returned or raised) the
    dictionary is as before and the edit flag is clear, so the [FocusOut]
    that follows returns at once and leaves the whole state alone. *)
Theorem focus_without_typing_stores_nothing st w w' event :
  event = FocusIn \/ event = KeyPress Key_Escape ->
  fil (state_of (eventFilter simple_eval py_str FMT_format
                   (LineEdit w) event st)) = fil st
  /\ spec_edited (state_of (eventFilter simple_eval py_str FMT_format
                              (LineEdit w) event st)) = false
  /\ eventFilter simple_eval py_str FMT_format (LineEdit w') FocusOut
       (state_of (eventFilter simple_eval py_str FMT_format
                    (LineEdit w) event st))
     = (state_of (eventFilter simple_eval py_str FMT_format
                    (LineEdit w) event st), Ok false).
Proof.
  intros Hev.
  assert (Hs : but_lineedits
                 (state_of (eventFilter simple_eval py_str FMT_format
                              (LineEdit w) event st))
               = but_lineedits (set_spec_edited false st)).
  { rewrite (eventFilter_reset st w event Hev).
    pose proof (load_entries_but_lineedits py_str FMT_format
                  (set_spec_edited false st)) as H.
    unfold state_of in *.
    destruct (load_entries py_str FMT_format (set_spec_edited false st))
      as [s [[]|e]]; exact H. }
  unfold but_lineedits in Hs. injection Hs as Hfil _ _ _ Hflag _.
  simpl in Hfil, Hflag.
  split; [exact Hfil | split; [exact Hflag | ] ].
  rewrite eventFilter_FocusOut.
  rewrite (store_entry_not_edited _ _ _ _ w' Hflag). reflexivity.
Qed.

End Events.

(** *** [update_UI]: a missing label, and what is visible afterwards *)

(** The line edit at index [i] exists and its visibility is [b]. *)
Definition visibility (b : bool) (i : nat) (st : state) : Prop :=
  exists w, qlineedit st !! i = Some w /\ edit_visible w = b.

(** The body of the loop of [_hide_entries]. *)
Definition hide_body (i : nat) : M state unit :=
  on_label i (setLabelVisible false) ;;
  on_lineedit i (setEditVisible false).

Lemma hide_entries_unfold n st :
  _hide_entries n st
  = for_each (seq n (length (qlabels st) - n)) hide_body st.
Proof. reflexivity. Qed.

Lemma visibility_on_lineedit b i k f :
  (forall w, edit_visible w = b -> edit_visible (f w) = b) ->
  preserves (visibility b i) (on_lineedit k f).
Proof.
  intros Hf. apply preserves_on_lineedit.
  intros st w (w0 & Hw0 & Hb) Hk. unfold visibility. simpl.
  destruct (decide (k = i)) as [-> | Hne].
  - exists (f w). split.
    + apply list_lookup_insert_eq. eapply lookup_lt_Some, Hk.
    + apply Hf. congruence.
  - exists w0. split; [ | exact Hb ].
    rewrite list_lookup_insert_ne by exact Hne. exact Hw0.
Qed.

Lemma visibility_on_label b i k f :
  preserves (visibility b i) (on_label k f).
Proof. apply preserves_on_label. intros st w H _. exact H. Qed.

Section Visibility.

Variable py_str : pyval -> string.
Variable FMT_format : pyval -> option string.
Variable rt_label : string -> string.

Lemma visibility_name_body b i labels k :
  preserves (visibility b i) (name_body py_str rt_label labels k).
Proof.
  unfold name_body. step_preserves;
    first [ apply preserves_label_at | apply preserves_lineedit_at
          | apply preserves_getitem | apply visibility_on_label
          | apply visibility_on_lineedit; intros w H; exact H ].
Qed.

Lemma visibility_finish b i labels :
  preserves (visibility b i) (finish py_str FMT_format rt_label labels).
Proof.
  unfold finish. step_preserves;
    first [ apply preserves_getitem
          | apply visibility_name_body
          | apply preserves_modify; intros s H; exact H
          | apply sort_dict_freqs_frame;
            [ intros st k t w H Hk;
              apply (visibility_on_lineedit b i k (setText t)
                       (fun w H => H) st) in H;
              rewrite on_lineedit_run, Hk in H; exact H
            | intros st f H; exact H ] ].
Qed.

Lemma visibility_create_body b i k :
  preserves (visibility b i) (create_body rt_label k).
Proof.
  unfold create_body. step_preserves;
    first [ apply visibility_on_label
          | apply visibility_on_lineedit; intros w H; exact H
          | apply preserves_modify; intros s H; exact H
          | apply preserves_modify; intros s (w & Hw & Hb);
            exists w; split; [ | exact Hb ];
            simpl; apply lookup_app_l_Some; exact Hw ].
Qed.

Lemma visibility_hide_body_other i k :
  preserves (visibility false i) (hide_body k).
Proof.
  unfold hide_body. step_preserves;
    [ apply visibility_on_label
    | apply visibility_on_lineedit; reflexivity ].
Qed.

Lemma visibility_show_body_other i k :
  preserves (visibility true i) (show_body k).
Proof.
  unfold show_body. step_preserves;
    [ apply visibility_on_label
    | apply visibility_on_lineedit; reflexivity ].
Qed.

Lemma hide_body_hides i s s' :
  hide_body i s = (s', Ok tt) -> visibility false i s'.
Proof.
  unfold hide_body. intros H.
  apply bind_ok_inv in H as (s1 & [] & _ & H).
  apply on_lineedit_ok in H as (w & Hw & ->).
  exists (setEditVisible false w). split; [ | reflexivity ].
  simpl. apply list_lookup_insert_eq. eapply lookup_lt_Some, Hw.
Qed.

Lemma show_body_shows i s s' :
  show_body i s = (s', Ok tt) -> visibility true i s'.
Proof.
  unfold show_body. intros H.
  apply bind_ok_inv in H as (s1 & [] & _ & H).
  apply on_lineedit_ok in H as (w & Hw & ->).
  exists (setEditVisible true w). split; [ | reflexivity ].
  simpl. apply list_lookup_insert_eq. eapply lookup_lt_Some, Hw.
Qed.

Lemma hide_loop idx : forall s s',
  for_each idx hide_body s = (s', Ok tt) ->
  forall i, i ∈ idx -> visibility false i s'.
Proof.
  induction idx as [|j idx IH]; intros s s' H i Hi; [inversion Hi|].
  simpl in H. apply bind_ok_inv in H as (s1 & [] & Hj & Hrest).
  apply elem_of_cons in Hi as [-> | Hi].
  - pose proof (preserves_for_each (visibility false j) idx hide_body
                  (visibility_hide_body_other j) s1 (hide_body_hides _ _ _ Hj))
      as H.
    rewrite Hrest in H. exact H.
  - apply (IH s1 s' Hrest i Hi).
Qed.

Lemma show_loop idx : forall s s',
  for_each idx show_body s = (s', Ok tt) ->
  forall i, i ∈ idx -> visibility true i s'.
Proof.
  induction idx as [|j idx IH]; intros s s' H i Hi; [inversion Hi|].
  simpl in H. apply bind_ok_inv in H as (s1 & [] & Hj & Hrest).
  apply elem_of_cons in Hi as [-> | Hi].
  - pose proof (preserves_for_each (visibility true j) idx show_body
                  (visibility_show_body_other j) s1 (show_body_shows _ _ _ Hj))
      as H.
    rewrite Hrest in H. exact H.
  - apply (IH s1 s' Hrest i Hi).
Qed.

Lemma update_UI_split labels st st' :
  update_UI py_str FMT_format rt_label labels st = (st', Ok tt) ->
  exists s1,
    resize rt_label (length labels) (set_new_labels labels st) = (s1, Ok tt)
    /\ finish py_str FMT_format rt_label labels s1 = (st', Ok tt).
Proof.
  rewrite update_UI_unfold. intros H.
  apply bind_ok_inv in H as (s1 & [] & H1 & H2). eauto.
Qed.

Lemma finish_visibility b i labels s1 st' :
  finish py_str FMT_format rt_label labels s1 = (st', Ok tt) ->
  visibility b i s1 -> visibility b i st'.
Proof.
  intros Hrun H. pose proof (visibility_finish b i labels s1 H) as H'.
  rewrite Hrun in H'. exact H'.
Qed.




(** The counter and the dictionary, which [update_UI] leaves alone until
    its loop is through. *)
Definition counter_and_dict (st : state) : nat * gmap string pyval :=
  (n_cur_labels st, fil st).

Lemma counter_and_dict_on_lineedit c k f :
  preserves (fun s => counter_and_dict s = c) (on_lineedit k f).
Proof. apply preserves_on_lineedit. intros st w H _. exact H. Qed.

Lemma counter_and_dict_on_label c k f :
  preserves (fun s => counter_and_dict s = c) (on_label k f).
Proof. apply preserves_on_label. intros st w H _. exact H. Qed.

Lemma counter_and_dict_hide_entries c n :
  preserves (fun s => counter_and_dict s = c) (_hide_entries n).
Proof.
  unfold _hide_entries. step_preserves;
    first [ apply counter_and_dict_on_label
          | apply counter_and_dict_on_lineedit ].
Qed.

Lemma counter_and_dict_show_entries c n :
  preserves (fun s => counter_and_dict s = c) (_show_entries rt_label n).
Proof.
  unfold _show_entries. step_preserves;
    first [ apply counter_and_dict_on_label
          | apply counter_and_dict_on_lineedit
          | apply preserves_modify; intros s H; exact H ].
Qed.

Lemma counter_and_dict_resize c n :
  preserves (fun s => counter_and_dict s = c) (resize rt_label n).
Proof.
  intros s H. unfold resize.
  destruct (n <? n_cur_labels s).
  - apply counter_and_dict_hide_entries, H.
  - destruct (n_cur_labels s <? n); [ | exact H ].
    apply counter_and_dict_show_entries, H.
Qed.

Lemma counter_and_dict_name_body c labels k :
  preserves (fun s => counter_and_dict s = c)
            (name_body py_str rt_label labels k).
Proof.
  unfold name_body. step_preserves;
    first [ apply preserves_label_at | apply preserves_lineedit_at
          | apply preserves_getitem | apply counter_and_dict_on_label
          | apply counter_and_dict_on_lineedit ].
Qed.

Lemma name_body_reads labels i s s' :
  name_body py_str rt_label labels i s = (s', Ok tt) ->
  exists l, labels !! i = Some l /\ is_Some (fil s !! l).
Proof.
  unfold name_body. intros H.
  apply bind_ok_inv in H as (s1 & w1 & H1 & H).
  rewrite label_at_run in H1. injection H1 as <- _.
  apply bind_ok_inv in H as (s2 & l & H2 & H).
  destruct (labels !! i) as [l'|] eqn:Hl; [ | discriminate H2 ].
  injection H2 as <- <-.
  apply bind_ok_inv in H as (s3 & [] & H3 & H).
  apply on_label_ok in H3 as (w3 & _ & ->).
  apply bind_ok_inv in H as (s4 & w4 & H4 & H).
  rewrite lineedit_at_run in H4. injection H4 as <- _.
  apply bind_ok_inv in H as (s5 & v & H5 & _).
  rewrite getitem_run in H5. simpl in H5.
  exists l'. split; [reflexivity|].
  destruct (fil s !! l') as [v'|]; [eauto | discriminate H5].
Qed.

Lemma name_loop_reads labels idx : forall s s',
  for_each idx (name_body py_str rt_label labels) s = (s', Ok tt) ->
  forall i, i ∈ idx -> exists l, labels !! i = Some l /\ is_Some (fil s !! l).
Proof.
  induction idx as [|j idx IH]; intros s s' H i Hi; [inversion Hi|].
  simpl in H. apply bind_ok_inv in H as (s1 & [] & Hj & Hrest).
  apply elem_of_cons in Hi as [-> | Hi].
  - apply (name_body_reads labels j s s1 Hj).
  - destruct (IH s1 s' Hrest i Hi) as (l & Hl & Hsome).
    exists l. split; [exact Hl|].
    pose proof (counter_and_dict_name_body (counter_and_dict s) labels j s
                  eq_refl) as Hc.
    rewrite Hj in Hc. unfold counter_and_dict in Hc. simpl in Hc.
    injection Hc as _ Hfil. rewrite <- Hfil. exact Hsome.
Qed.

Lemma update_UI_missing_label_run labels st l :
  l ∈ labels -> fil st !! l = None ->
  exists s e,
    update_UI py_str FMT_format rt_label labels st = (s, Raise e)
    /\ counter_and_dict s = counter_and_dict st.
Proof.
  intros Hl Hnone.
  rewrite update_UI_unfold. unfold bind at 1.
  pose proof (counter_and_dict_resize (counter_and_dict st) (length labels)
                (set_new_labels labels st) eq_refl) as H1.
  unfold state_of in H1.
  destruct (resize rt_label (length labels) (set_new_labels labels st))
    as [s1 [[]|e]]; simpl in H1; [ | eauto ].
  unfold finish. unfold bind at 1. rewrite getitem_run.
  destruct (fil s1 !! "rt"); [ | eauto ].
  unfold bind at 1. rewrite getitem_run.
  destruct (fil s1 !! "dm"); [ | eauto ].
  unfold bind at 1. rewrite getitem_run.
  destruct (fil s1 !! "fo"); [ | eauto ].
  unfold bind at 1. unfold for_range. rewrite Nat.sub_0_r.
  pose proof (preserves_for_each
                (fun s => counter_and_dict s = counter_and_dict st)
                (seq 0 (length labels)) (name_body py_str rt_label labels)
                (counter_and_dict_name_body _ labels) s1 H1) as H2.
  unfold state_of in H2.
  destruct (for_each (seq 0 (length labels))
              (name_body py_str rt_label labels) s1)
    as [s2 [[]|e]] eqn:Hloop; simpl in H2; [ | eauto ].
  exfalso.
  apply list_elem_of_lookup in Hl as [i Hi].
  destruct (name_loop_reads labels _ _ _ Hloop i) as (l' & Hl' & Hsome).
  { apply elem_of_seq. split; [lia|]. simpl. eapply lookup_lt_Some, Hi. }
  assert (l' = l) by congruence. subst l'.
  unfold counter_and_dict in H1. injection H1 as _ Hfil.
  rewrite Hfil, Hnone in Hsome. destruct Hsome as [? Hsome]. discriminate Hsome.
Qed.

(** X8: a label that is no key of [fb.fil[0]] makes [update_UI] raise
    half-way: the call does not return, and it leaves [n_cur_labels] at its
    old value and the dictionary unsorted and unchanged (widgets may
    already have been created, hidden or renamed). *)
Theorem update_UI_missing_label labels st l :
  l ∈ labels -> fil st !! l = None ->
  (exists e, result_of (update_UI py_str FMT_format rt_label labels st)
             = Raise e)
  /\ n_cur_labels (state_of (update_UI py_str FMT_format rt_label labels st))
     = n_cur_labels st
  /\ fil (state_of (update_UI py_str FMT_format rt_label labels st)) = fil st.
Proof.
  intros Hl Hnone.
  destruct (update_UI_missing_label_run labels st l Hl Hnone)
    as (s & e & Hrun & Hc).
  rewrite Hrun. unfold counter_and_dict in Hc. injection Hc as H1 H2.
  split; [exists e; reflexivity | split; assumption].
Qed.

End Visibility.

(** *** The theorems above on concrete inputs *)

Section OnExamples.
Import Examples.

Lemma load_entries_texts_witness :
  load_entries str_of format_3g (editing 1 false "x")
  = (state_of (load_entries str_of format_3g (editing 1 false "x")), Ok tt)
  /\ qlineedit (state_of (load_entries str_of format_3g (editing 1 false "x")))
     = [a_lineedit "F_PB" "0.125" true; a_lineedit "F_SB" "0.25" false]
  /\ Forall2 (fun w w' =>
                exists t, shown_text str_of format_3g
                            (fil (editing 1 false "x")) w = Ok t
                          /\ w' = setText t w)
             (qlineedit (editing 1 false "x"))
             (qlineedit (state_of (load_entries str_of format_3g
                                     (editing 1 false "x")))).
Proof.
  assert (H : load_entries str_of format_3g (editing 1 false "x")
              = (state_of (load_entries str_of format_3g (editing 1 false "x")),
                 Ok tt)) by (vm_compute; reflexivity).
  split; [exact H | split; [vm_compute; reflexivity | ] ].
  exact (proj2 (load_entries_texts str_of format_3g _ _ H)).
Defined.

Lemma load_entries_idempotent_witness :
  load_entries str_of format_3g (editing 1 false "x")
  = (state_of (load_entries str_of format_3g (editing 1 false "x")), Ok tt)
  /\ load_entries str_of format_3g
       (state_of (load_entries str_of format_3g (editing 1 false "x")))
     = (state_of (load_entries str_of format_3g (editing 1 false "x")), Ok tt).
Proof.
  assert (H : load_entries str_of format_3g (editing 1 false "x")
              = (state_of (load_entries str_of format_3g (editing 1 false "x")),
                 Ok tt)) by (vm_compute; reflexivity).
  split; [exact H | ].
  exact (load_entries_idempotent str_of format_3g _ _ H).
Defined.

Lemma load_entries_stops_at_missing_label_witness :
  fil (with_dummy false) !! "dummy" = None
  /\ load_entries str_of format_3g (with_dummy false)
     = (set_qlineedit
          (fun _ => [a_lineedit "F_PB" "0.125" false;
                     a_lineedit "dummy" "old" false;
                     a_lineedit "F_SB" "old" false])
          (with_dummy false),
        Raise (KeyError "dummy")).
Proof.
  assert (H1 : fil (with_dummy false) !! "dummy" = None) by reflexivity.
  split; [exact H1 | ].
  exact (proj1 (load_entries_stops_at_missing_label str_of format_3g
                  (with_dummy false)
                  [a_lineedit "F_PB" "old" false]
                  (a_lineedit "dummy" "old" false)
                  [a_lineedit "F_SB" "old" false]
                  eq_refl eq_refl H1)).
Defined.

Lemma sort_dict_freqs_all_or_nothing_witness :
  fil (with_dummy true) !! "freq_specs_sort" = Some (PBool true)
  /\ fil (with_dummy true) !! "dummy" = None
  /\ exists k, sort_dict_freqs str_of format_3g (with_dummy true)
               = (with_dummy true, Raise (KeyError k)).
Proof.
  assert (H1 : fil (with_dummy true) !! "freq_specs_sort" = Some (PBool true))
    by reflexivity.
  assert (H2 : fil (with_dummy true) !! "dummy" = None) by reflexivity.
  split; [exact H1 | split; [exact H2 | ] ].
  exact (proj1 (proj2 (sort_dict_freqs_all_or_nothing str_of format_3g
                         (with_dummy true)) (PBool true) H1 eq_refl)
           [a_lineedit "F_PB" "old" false]
           (a_lineedit "dummy" "old" false)
           [a_lineedit "F_SB" "old" false] eq_refl H2).
Defined.

Lemma sort_dict_freqs_twice_witness :
  fil out_of_order !! "freq_specs_sort" = Some (PBool true)
  /\ fil (state_of (sort_dict_freqs str_of format_3g
                      (state_of (sort_dict_freqs str_of format_3g out_of_order))))
     = fil (state_of (sort_dict_freqs str_of format_3g out_of_order)).
Proof.
  assert (H1 : fil out_of_order !! "freq_specs_sort" = Some (PBool true))
    by reflexivity.
  split; [exact H1 | ].
  apply (sort_dict_freqs_twice str_of format_3g out_of_order (PBool true)
           [PFloat 0.5; PFloat 0.25] H1 eq_refl).
  - simpl. intros H. apply elem_of_cons in H as [H | H]; [discriminate H|].
    apply list_elem_of_singleton in H. discriminate H.
  - simpl. apply NoDup_cons. split.
    + intros H. apply list_elem_of_singleton in H. discriminate H.
    + apply NoDup_singleton.
  - repeat constructor.
  - repeat constructor; eexists; (split; [reflexivity | reflexivity]).
Defined.

Lemma store_entry_signal_and_flag_witness :
  spec_edited (editing 8 false "1000") = true
  /\ result_of (_store_entry eval_literal str_of format_3g
                  (a_lineedit "F_PB" "1000" true) (editing 8 false "1000"))
     = Ok tt
  /\ sigSpecsChanged
       (state_of (_store_entry eval_literal str_of format_3g
                    (a_lineedit "F_PB" "1000" true) (editing 8 false "1000")))
     = 1
  /\ spec_edited
       (state_of (_store_entry eval_literal str_of format_3g
                    (a_lineedit "F_PB" "1000" true) (editing 8 false "1000")))
     = false.
Proof.
  assert (H1 : spec_edited (editing 8 false "1000") = true) by reflexivity.
  assert (H2 : result_of (_store_entry eval_literal str_of format_3g
                            (a_lineedit "F_PB" "1000" true)
                            (editing 8 false "1000")) = Ok tt)
    by (vm_compute; reflexivity).
  split; [exact H1 | split; [exact H2 | ] ].
  exact (proj1 (store_entry_signal_and_flag eval_literal str_of format_3g
                  (editing 8 false "1000") (a_lineedit "F_PB" "1000" true))
           H1 H2).
Defined.

Lemma focus_without_typing_stores_nothing_witness :
  fil (state_of (eventFilter eval_literal str_of format_3g
                   (LineEdit (a_lineedit "F_PB" "1000" true)) FocusIn
                   (editing 8 false "1000")))
  = fil (editing 8 false "1000")
  /\ spec_edited (state_of (eventFilter eval_literal str_of format_3g
                              (LineEdit (a_lineedit "F_PB" "1000" true)) FocusIn
                              (editing 8 false "1000"))) = false
  /\ eventFilter eval_literal str_of format_3g
       (LineEdit (a_lineedit "F_PB" "1000" true)) FocusOut
       (state_of (eventFilter eval_literal str_of format_3g
                    (LineEdit (a_lineedit "F_PB" "1000" true)) FocusIn
                    (editing 8 false "1000")))
     = (state_of (eventFilter eval_literal str_of format_3g
                    (LineEdit (a_lineedit "F_PB" "1000" true)) FocusIn
                    (editing 8 false "1000")), Ok false).
Proof.
  exact (focus_without_typing_stores_nothing eval_literal str_of format_3g
           (editing 8 false "1000") (a_lineedit "F_PB" "1000" true)
           (a_lineedit "F_PB" "1000" true) FocusIn (or_introl eq_refl)).
Defined.

Lemma update_UI_missing_label_witness :
  fil lowpass_shown !! "F_C" = None
  /\ (exists e, result_of (update_UI str_of format_3g plain_label
                             ["F_PB"; "F_C"] lowpass_shown) = Raise e)
  /\ n_cur_labels (state_of (update_UI str_of format_3g plain_label
                               ["F_PB"; "F_C"] lowpass_shown))
     = n_cur_labels lowpass_shown
  /\ fil (state_of (update_UI str_of format_3g plain_label
                      ["F_PB"; "F_C"] lowpass_shown))
     = fil lowpass_shown.
Proof.
  assert (H1 : fil lowpass_shown !! "F_C" = None) by (vm_compute; reflexivity).
  split; [exact H1 | ].
  apply (update_UI_missing_label str_of format_3g plain_label
           ["F_PB"; "F_C"] lowpass_shown "F_C"); [ | exact H1 ].
  right. left.
Defined.




End OnExamples.

End FreqSpecsMore.

(** ** More on [InputParams]: failed designs and coefficient shapes *)

Module InputParamsMore.
Import Py Eff EffFacts InputParams.
Local Open Scope eff_scope.

(** [m] keeps [P] on the runs that raise. *)
Definition raise_keeps {S A} (P : S -> Prop) (m : M S A) : Prop :=
  forall s e, P s -> result_of (m s) = Raise e -> P (state_of (m s)).

Lemma raise_keeps_bind {S A B} (P : S -> Prop) (m : M S A) (k : A -> M S B) :
  preserves P m -> (forall a, raise_keeps P (k a)) -> raise_keeps P (bind m k).
Proof.
  intros Hm Hk s e HP. specialize (Hm s HP).
  unfold bind, state_of, result_of in *.
  destruct (m s) as [s1 [a|e1]]; simpl in *.
  - apply Hk, Hm.
  - intros _. exact Hm.
Qed.

Lemma raise_keeps_modify {S} (P : S -> Prop) (f : S -> S) :
  raise_keeps P (modify f).
Proof. intros s e _ H. discriminate H. Qed.

Lemma raise_keeps_of_preserves {S A} (P : S -> Prop) (m : M S A) :
  preserves P m -> raise_keeps P m.
Proof. intros H s e HP _. apply H, HP. Qed.

Section Failure.

Variable filter_obj : Type.
Variable zpk_t : Type.
Variable objectWizzard : pyval -> outcome filter_obj.
Variable call_method :
  filter_obj -> string -> gmap string pyval ->
  outcome (filter_obj * gmap string pyval).
Variable attr_zpk : filter_obj -> outcome zpk_t.
Variable attr_coeffs : filter_obj -> outcome ndarray.
Variable fo_update fspec_update aspec_update wspec_update wspec_updateElements :
  gmap string pyval -> outcome (gmap string pyval).

Local Abbreviation state := (InputParams.state filter_obj zpk_t).
Local Abbreviation run_startDesignFilt :=
  (startDesignFilt filter_obj zpk_t objectWizzard call_method attr_zpk
     attr_coeffs fo_update fspec_update aspec_update wspec_update
     wspec_updateElements).

(** The stored coefficients. *)
Definition coeffs_are (c : option ndarray) (st : state) : Prop :=
  gD_coeffs st = c.

Lemma coeffs_sel c k : preserves (coeffs_are c) (sel filter_obj zpk_t k).
Proof. intros s H. unfold sel. destruct (selFilter s !! k); exact H. Qed.

Lemma coeffs_get_myFilter c :
  preserves (coeffs_are c) (get_myFilter filter_obj zpk_t).
Proof. intros s H. unfold get_myFilter. destruct (myFilter s); exact H. Qed.

Lemma coeffs_widget_call c w f :
  preserves (coeffs_are c) (widget_call filter_obj zpk_t w f).
Proof.
  unfold widget_call. step_preserves;
    apply preserves_modify; intros s H; exact H.
Qed.

Lemma coeffs_debug_name c :
  preserves (coeffs_are c) (debug_name filter_obj zpk_t).
Proof. unfold debug_name. step_preserves; apply coeffs_sel. Qed.

Lemma coeffs_writeAll c :
  preserves (coeffs_are c)
    (writeAll filter_obj zpk_t fo_update fspec_update aspec_update wspec_update).
Proof. unfold writeAll. step_preserves; apply coeffs_widget_call. Qed.

Lemma startDesignFilt_raise_keeps c :
  raise_keeps (coeffs_are c) run_startDesignFilt.
Proof.
  unfold startDesignFilt.
  repeat match goal with
    | |- raise_keeps _ (bind _ _) => apply raise_keeps_bind; [ | intros ? ]
    | |- raise_keeps _ (modify _) => apply raise_keeps_modify
    | |- raise_keeps _ (if ?b then _ else _) => destruct b
    | |- preserves _ (match ?v with PFloat _ => _ | PBool _ => _ | PStr _ => _ end) =>
        destruct v
    | |- preserves _ (widget_call _ _ _ _) => apply coeffs_widget_call
    | |- preserves _ (writeAll _ _ _ _ _ _) => apply coeffs_writeAll
    | |- preserves _ (debug_name _ _) => apply coeffs_debug_name
    | |- preserves _ (sel _ _ _) => apply coeffs_sel
    | |- preserves _ (get_myFilter _ _) => apply coeffs_get_myFilter
    | |- preserves _ (modify _) => apply preserves_modify; intros ? H; exact H
    | |- preserves _ _ => progress step_preserves
    end.
Qed.


End Failure.

(** *** Which coefficients count as FIR *)

Lemma common_shape_scalars n :
  common_shape (List.map shape (List.map Num n)) = [].
Proof.
  destruct n as [|x n]; [reflexivity|]. simpl.
  induction n as [|y n IH]; [reflexivity | exact IH].
Qed.

Lemma shape_numbers xs : shape (Arr (List.map Num xs)) = [length xs].
Proof.
  simpl. rewrite common_shape_scalars, length_map. reflexivity.
Qed.

Lemma shape_pair b a :
  shape (Arr [Arr (List.map Num b); Arr (List.map Num a)])
  = if (length b =? length a)%nat then [2; length b] else [2].
Proof.
  change (shape (Arr [Arr (List.map Num b); Arr (List.map Num a)]))
    with (2 :: common_prefix (shape (Arr (List.map Num b)))
                             (shape (Arr (List.map Num a)))).
  rewrite !shape_numbers. simpl.
  destruct (length b =? length a)%nat; reflexivity.
Qed.

Lemma read_back_flat xs :
  read_back (Arr (List.map Num xs))
  = Tup [Arr (List.map Num xs); Arr [Num 1]].
Proof. unfold read_back, np_ndim. rewrite shape_numbers. reflexivity. Qed.

(** X13: the test [np.ndim(coeffs) == 1] tells FIR from IIR as intended on
    well-shaped data.  A flat list of numbers [b] is stored as [(b, [1])];
    a pair [[b, a]] of number lists of equal length is stored as it is. *)
Theorem read_back_fir_and_iir xs b a :
  read_back (Arr (List.map Num xs))
  = Tup [Arr (List.map Num xs); Arr [Num 1]]
  /\ (length b = length a ->
      read_back (Arr [Arr (List.map Num b); Arr (List.map Num a)])
      = Arr [Arr (List.map Num b); Arr (List.map Num a)]).
Proof.
  split.
  - apply read_back_flat.
  - intros Hlen. unfold read_back, np_ndim. rewrite shape_pair.
    rewrite (proj2 (Nat.eqb_eq _ _) Hlen). reflexivity.
Qed.

(** X14: on sequences of unequal length, which [numpy] keeps as a
    one-dimensional array of objects, the test is off.  IIR coefficients
    [[b, a]] with [len(b) != len(a)] are taken for FIR and stored as
    [([b, a], [1])]; and the pair [(b, [1])] stored for an FIR filter has
    itself [ndim == 1], unless [b] has exactly one tap. *)
Theorem read_back_on_unequal_lengths xs b a :
  (length b <> length a ->
   read_back (Arr [Arr (List.map Num b); Arr (List.map Num a)])
   = Tup [Arr [Arr (List.map Num b); Arr (List.map Num a)]; Arr [Num 1]])
  /\ np_ndim (read_back (Arr (List.map Num xs)))
     = (if (length xs =? 1)%nat then 2 else 1).
Proof.
  split.
  - intros Hlen. unfold read_back, np_ndim. rewrite shape_pair.
    rewrite (proj2 (Nat.eqb_neq _ _) Hlen). reflexivity.
  - rewrite read_back_flat. unfold np_ndim.
    change (shape (Tup [Arr (List.map Num xs); Arr [Num 1]]))
      with (2 :: common_prefix (shape (Arr (List.map Num xs)))
                               (shape (Arr [Num 1]))).
    rewrite shape_numbers. simpl.
    destruct (length xs =? 1)%nat; reflexivity.
Qed.

(** *** The theorems above on concrete inputs *)

Section OnExamples.
Import Examples.


Lemma read_back_fir_and_iir_witness :
  read_back (Arr [Num 0.25; Num 0.5; Num 0.25])
  = Tup [Arr [Num 0.25; Num 0.5; Num 0.25]; Arr [Num 1]]
  /\ read_back (Arr [Arr [Num 0.25; Num 0.25]; Arr [Num 1; Num (-0.5)]])
     = Arr [Arr [Num 0.25; Num 0.25]; Arr [Num 1; Num (-0.5)]].
Proof.
  split.
  - exact (proj1 (read_back_fir_and_iir [0.25; 0.5; 0.25]%float [] [])).
  - exact (proj2 (read_back_fir_and_iir [] [0.25; 0.25]%float
                    [1; -0.5]%float) eq_refl).
Defined.

Lemma read_back_on_unequal_lengths_witness :
  read_back (Arr [Arr [Num 0.25; Num 0.5; Num 0.25]; Arr [Num 1; Num (-0.5)]])
  = Tup [Arr [Arr [Num 0.25; Num 0.5; Num 0.25]; Arr [Num 1; Num (-0.5)]];
         Arr [Num 1]]
  /\ np_ndim (read_back (Arr [Num 0.25; Num 0.5; Num 0.25])) = 1
  /\ np_ndim (read_back (Arr [Num 0.25])) = 2.
Proof.
  split; [ | split].
  - apply (proj1 (read_back_on_unequal_lengths [] [0.25; 0.5; 0.25]%float
                    [1; -0.5]%float)).
    simpl. lia.
  - exact (proj2 (read_back_on_unequal_lengths [0.25; 0.5; 0.25]%float [] [])).
  - exact (proj2 (read_back_on_unequal_lengths [0.25]%float [] [])).
Defined.

End OnExamples.

End InputParamsMore.

(** ** Properties of [chooseDesignMethod] *)

Module DesignChoiceFacts.
Import Py Eff EffFacts DesignChoice.
Local Open Scope eff_scope.

(** The label begins with the letter [c]. *)
Definition starts_with (c : Ascii.ascii) (l : string) : bool :=
  match l with
  | EmptyString => false
  | String a _ => Ascii.eqb a c
  end.

Lemma labels_with_nonempty c l :
  Forall (fun s => s <> "") l ->
  labels_with c l = Ok (List.filter (starts_with c) l).
Proof.
  induction 1 as [|s l Hs _ IH]; simpl; [reflexivity|].
  destruct s as [|a s]; [congruence|]. simpl. rewrite IH.
  destruct (Ascii.eqb a c); reflexivity.
Qed.

Lemma labels_with_empty c l : "" ∈ l -> labels_with c l = Raise IndexError.
Proof.
  induction l as [|s l IH]; intros H; [inversion H|].
  apply elem_of_cons in H as [<- | H]; [reflexivity|].
  simpl. destruct s as [|a s]; [reflexivity|]. simpl.
  rewrite (IH H). reflexivity.
Qed.

Lemma labels_nonempty_or_not (l : list string) :
  Forall (fun s => s <> "") l \/ "" ∈ l.
Proof.
  induction l as [|s l [IH | IH]].
  - left. constructor.
  - destruct s as [|a s].
    + right. left.
    + left. constructor; [discriminate | exact IH].
  - right. right. exact IH.
Qed.

Lemma not_empty_filter (f : string -> bool) l :
  not_empty (List.filter f l) = existsb f l.
Proof.
  induction l as [|s l IH]; simpl; [reflexivity|].
  destruct (f s); [reflexivity | exact IH].
Qed.

(** The dictionary [fb.gD['filterTree'][rt][ft][dm][fo]]. *)
Definition leaf (t : tree) (rt ft dm fo_ : pyval) : outcome tree_leaf :=
  match subscript t rt with
  | Raise e => Raise e
  | Ok t1 =>
      match subscript t1 ft with
      | Raise e => Raise e
      | Ok t2 =>
          match subscript t2 dm with
          | Raise e => Raise e
          | Ok t3 => subscript t3 fo_
          end
      end
  end.

Lemma tree_entry_run rt ft dm fo_ entry st :
  tree_entry rt ft dm fo_ entry st =
  (st, match leaf (filterTree st) rt ft dm fo_ with
       | Raise e => Raise e
       | Ok t4 => subscript t4 (PStr entry)
       end).
Proof.
  unfold tree_entry, leaf, bind, gets, lift.
  destruct (subscript (filterTree st) rt) as [t1|]; [ | reflexivity ].
  destruct (subscript t1 ft) as [t2|]; [ | reflexivity ].
  destruct (subscript t2 dm) as [t3|]; [ | reflexivity ].
  destruct (subscript t3 fo_) as [t4|]; reflexivity.
Qed.

Section Facts.

Variable fo_update : gmap string pyval -> outcome (gmap string pyval).

(** What the method has read when its reads went through. *)
Definition reads (st : state) (par enb : list string) : Prop :=
  exists rt ft dm fo_ t4,
    selFilter st !! "rt" = Some rt /\ selFilter st !! "ft" = Some ft
    /\ selFilter st !! "dm" = Some dm /\ selFilter st !! "fo" = Some fo_
    /\ leaf (filterTree st) rt ft dm fo_ = Ok t4
    /\ t4 !! "par" = Some par /\ t4 !! "enb" = Some enb.

(** The state after the three assignments. *)
Definition assigned (par : list string) (st : state) : state :=
  set_weightParams (List.filter (starts_with "W") par)
    (set_ampParams (List.filter (starts_with "A") par)
       (set_freqParams (List.filter (starts_with "F") par) st)).

(** The calls on the sub-widgets after [fo.update()]. *)
Definition widget_calls (par enb : list string) : list call :=
  [setElements fspec (List.filter (starts_with "F") par);
   setVisible aspec (existsb (starts_with "A") par);
   setEnabled aspec (enabled_in "aspec" enb);
   setElements aspec (List.filter (starts_with "A") par);
   setVisible wspec (existsb (starts_with "W") par);
   setEnabled wspec (enabled_in "wspec" enb);
   setElements wspec (List.filter (starts_with "W") par)].

(** Every run of [chooseDesignMethod] is of one of three kinds. *)
Lemma chooseDesignMethod_cases st :
  (exists e, chooseDesignMethod fo_update st = (st, Raise e)
             /\ forall par enb, reads st par enb ->
                  "" ∈ par /\ e = IndexError)
  \/ (exists par enb,
        reads st par enb /\ Forall (fun s => s <> "") par
        /\ ((exists e, fo_update (selFilter st) = Raise e
                       /\ chooseDesignMethod fo_update st
                          = (log (update fo) (assigned par st), Raise e))
            \/ (exists d', fo_update (selFilter st) = Ok d'
                  /\ exists st',
                      chooseDesignMethod fo_update st = (st', Ok tt)
                      /\ selFilter st' = d'
                      /\ filterTree st' = filterTree st
                      /\ freqParams st' = Some (List.filter (starts_with "F") par)
                      /\ ampParams st' = Some (List.filter (starts_with "A") par)
                      /\ weightParams st' = Some (List.filter (starts_with "W") par)
                      /\ calls st' = calls st ++ update fo :: widget_calls par enb))).
Proof.
  remember (chooseDesignMethod fo_update st) as r eqn:Hr.
  unfold chooseDesignMethod in Hr.
  unfold bind at 1, sel at 1 in Hr.
  destruct (selFilter st !! "rt") as [rt|] eqn:Hrt; cbv beta iota in Hr.
  2:{ left. eexists. split; [exact Hr|].
      intros par enb (? & ? & ? & ? & ? & H & _). congruence. }
  unfold bind at 1, sel at 1 in Hr.
  destruct (selFilter st !! "ft") as [ft|] eqn:Hft; cbv beta iota in Hr.
  2:{ left. eexists. split; [exact Hr|].
      intros par enb (? & ? & ? & ? & ? & _ & H & _). congruence. }
  unfold bind at 1, sel at 1 in Hr.
  destruct (selFilter st !! "dm") as [dm|] eqn:Hdm; cbv beta iota in Hr.
  2:{ left. eexists. split; [exact Hr|].
      intros par enb (? & ? & ? & ? & ? & _ & _ & H & _). congruence. }
  unfold bind at 1, sel at 1 in Hr.
  destruct (selFilter st !! "fo") as [fo_|] eqn:Hfo; cbv beta iota in Hr.
  2:{ left. eexists. split; [exact Hr|].
      intros par enb (? & ? & ? & ? & ? & _ & _ & _ & H & _). congruence. }
  unfold bind at 1 in Hr. rewrite tree_entry_run in Hr.
  destruct (leaf (filterTree st) rt ft dm fo_) as [t4|e] eqn:Hleaf;
    cbv beta iota in Hr.
  2:{ left. eexists. split; [exact Hr|].
      intros par enb (? & ? & ? & ? & ? & H1 & H2 & H3 & H4 & H5 & _).
      congruence. }
  unfold subscript at 1 in Hr. cbv beta iota in Hr.
  destruct (t4 !! "par") as [par|] eqn:Hpar; cbv beta iota in Hr.
  2:{ left. eexists. split; [exact Hr|].
      intros par enb (? & ? & ? & ? & ? & H1 & H2 & H3 & H4 & H5 & H6 & _).
      congruence. }
  unfold bind at 1 in Hr. rewrite tree_entry_run, Hleaf in Hr.
  cbv beta iota in Hr.
  unfold subscript at 1 in Hr. cbv beta iota in Hr.
  destruct (t4 !! "enb") as [enb|] eqn:Henb; cbv beta iota in Hr.
  2:{ left. eexists. split; [exact Hr|].
      intros par' enb (? & ? & ? & ? & ? & H1 & H2 & H3 & H4 & H5 & H6 & H7).
      congruence. }
  assert (Hreads : reads st par enb).
  { exists rt, ft, dm, fo_, t4. auto 10. }
  destruct (labels_nonempty_or_not par) as [Hne | Hempty].
  2:{ left. unfold bind at 1, lift at 1 in Hr.
      rewrite (labels_with_empty _ _ Hempty) in Hr.
      eexists. split; [exact Hr|].
      intros par' enb' (? & ? & ? & ? & ? & H1 & H2 & H3 & H4 & H5 & H6 & H7).
      assert (par' = par) by congruence. subst par'.
      split; [exact Hempty | reflexivity]. }
  right. exists par, enb. split; [exact Hreads | split; [exact Hne | ] ].
  unfold bind, lift, modify, gets in Hr.
  rewrite !(labels_with_nonempty _ _ Hne) in Hr. cbv beta iota in Hr.
  simpl in Hr.
  destruct (fo_update (selFilter st)) as [d'|e] eqn:Hupd.
  - right. exists d'. split; [reflexivity|].
    eexists. split; [exact Hr|]. simpl.
    rewrite !not_empty_filter. rewrite <- !app_assoc. simpl.
    repeat split; reflexivity.
  - left. exists e. split; [reflexivity | exact Hr].
Qed.

(** X15: a run of [chooseDesignMethod] that returns has split the
    parameter labels of the selected design by their first letter, in
    order: [freqParams], [ampParams] and [weightParams] are the labels that
    begin with [F], [A] and [W], labels with another first letter are in
    none of them.  It has then called [fo.update()] and handed each list to
    its sub-widget; the amplitude and weight widgets are made visible
    exactly when their list is not empty, and enabled exactly when named
    in ['enb']. *)
Theorem chooseDesignMethod_sorts_labels st st' :
  chooseDesignMethod fo_update st = (st', Ok tt) ->
  exists par enb,
    reads st par enb
    /\ Forall (fun s => s <> "") par
    /\ freqParams st' = Some (List.filter (starts_with "F") par)
    /\ ampParams st' = Some (List.filter (starts_with "A") par)
    /\ weightParams st' = Some (List.filter (starts_with "W") par)
    /\ calls st' = calls st ++ update fo :: widget_calls par enb.
Proof.
  intros Hrun.
  destruct (chooseDesignMethod_cases st)
    as [(e & H & _) | (par & enb & Hreads & Hne & [(e & _ & H) | (d' & _ & H)])].
  - rewrite H in Hrun. discriminate Hrun.
  - rewrite H in Hrun. discriminate Hrun.
  - destruct H as (s & H & _ & _ & HF & HA & HW & Hc).
    rewrite H in Hrun. injection Hrun as <-.
    exists par, enb. auto 10.
Qed.

(** X16: [chooseDesignMethod] reads everything, and builds its three lists,
    before it touches a widget.  A run that raises has either changed
    nothing at all (a key missing from the spec dictionary or the filter
    tree, or an empty label, whose [l[0]] is an [IndexError]), or it failed
    inside [fo.update()], after which no other sub-widget was called. *)
Theorem chooseDesignMethod_fails_cleanly st e :
  result_of (chooseDesignMethod fo_update st) = Raise e ->
  (state_of (chooseDesignMethod fo_update st) = st
   /\ forall par enb, reads st par enb -> "" ∈ par /\ e = IndexError)
  \/ (fo_update (selFilter st) = Raise e
      /\ calls (state_of (chooseDesignMethod fo_update st))
         = calls st ++ [update fo]).
Proof.
  intros Hrun.
  destruct (chooseDesignMethod_cases st)
    as [(e' & H & Hwhy) | (par & enb & Hreads & Hne & [(e' & Hupd & H) | (d' & _ & H)])].
  - rewrite H in Hrun |- *. injection Hrun as <-. left. split; [reflexivity | exact Hwhy].
  - rewrite H in Hrun |- *. injection Hrun as <-. right. split; [exact Hupd | reflexivity].
  - destruct H as (s & H & _). rewrite H in Hrun. discriminate Hrun.
Qed.

End Facts.

(** *** The theorems above on concrete inputs *)

Section OnExamples.
Import Examples.

Lemma chooseDesignMethod_sorts_labels_witness :
  chooseDesignMethod widget_in_sync (choosing ["N"; "A_pb"; "F_pb"; "F_sb"])
  = (state_of (chooseDesignMethod widget_in_sync
                 (choosing ["N"; "A_pb"; "F_pb"; "F_sb"])), Ok tt)
  /\ freqParams (state_of (chooseDesignMethod widget_in_sync
                             (choosing ["N"; "A_pb"; "F_pb"; "F_sb"])))
     = Some ["F_pb"; "F_sb"]
  /\ calls (state_of (chooseDesignMethod widget_in_sync
                        (choosing ["N"; "A_pb"; "F_pb"; "F_sb"])))
     = [update fo; setElements fspec ["F_pb"; "F_sb"];
        setVisible aspec true; setEnabled aspec true;
        setElements aspec ["A_pb"];
        setVisible wspec false; setEnabled wspec false;
        setElements wspec []]
  /\ exists par enb,
       reads (choosing ["N"; "A_pb"; "F_pb"; "F_sb"]) par enb
       /\ Forall (fun s => s <> "") par
       /\ freqParams (state_of (chooseDesignMethod widget_in_sync
                                  (choosing ["N"; "A_pb"; "F_pb"; "F_sb"])))
          = Some (List.filter (starts_with "F") par)
       /\ ampParams (state_of (chooseDesignMethod widget_in_sync
                                 (choosing ["N"; "A_pb"; "F_pb"; "F_sb"])))
          = Some (List.filter (starts_with "A") par)
       /\ weightParams (state_of (chooseDesignMethod widget_in_sync
                                    (choosing ["N"; "A_pb"; "F_pb"; "F_sb"])))
          = Some (List.filter (starts_with "W") par)
       /\ calls (state_of (chooseDesignMethod widget_in_sync
                             (choosing ["N"; "A_pb"; "F_pb"; "F_sb"])))
          = calls (choosing ["N"; "A_pb"; "F_pb"; "F_sb"])
            ++ update fo :: widget_calls par enb.
Proof.
  assert (H : chooseDesignMethod widget_in_sync
                (choosing ["N"; "A_pb"; "F_pb"; "F_sb"])
              = (state_of (chooseDesignMethod widget_in_sync
                             (choosing ["N"; "A_pb"; "F_pb"; "F_sb"])), Ok tt))
    by (vm_compute; reflexivity).
  split; [exact H | ].
  split; [vm_compute; reflexivity | ].
  split; [vm_compute; reflexivity | ].
  exact (chooseDesignMethod_sorts_labels widget_in_sync _ _ H).
Defined.

Lemma chooseDesignMethod_fails_cleanly_witness :
  result_of (chooseDesignMethod widget_in_sync (choosing ["F_pb"; ""]))
  = Raise IndexError
  /\ ((state_of (chooseDesignMethod widget_in_sync (choosing ["F_pb"; ""]))
       = choosing ["F_pb"; ""]
       /\ forall par enb,
            reads (choosing ["F_pb"; ""]) par enb ->
            "" ∈ par /\ IndexError = IndexError)
      \/ (widget_in_sync (selFilter (choosing ["F_pb"; ""])) = Raise IndexError
          /\ calls (state_of (chooseDesignMethod widget_in_sync
                                (choosing ["F_pb"; ""])))
             = calls (choosing ["F_pb"; ""]) ++ [update fo])).
Proof.
  assert (H : result_of (chooseDesignMethod widget_in_sync
                           (choosing ["F_pb"; ""])) = Raise IndexError)
    by (vm_compute; reflexivity).
  split; [exact H | ].
  exact (chooseDesignMethod_fails_cleanly widget_in_sync _ _ H).
Defined.

End OnExamples.

End DesignChoiceFacts.
